(** * Flight notifier: the search-and-aggregate pipeline of [main.py]

    A shallow embedding of [validate_env_vars], [FlightNotifier.search_flights],
    [FlightNotifier.send_email] and [main], with the collaborators the script
    talks to (the Amadeus client, the SMTP server, the clock and the
    interpreter's builtins) kept abstract, and the properties of the design
    document proved over it.

    Python exceptions are the subclasses of [Exception]; [KeyboardInterrupt]
    and [SystemExit], which no [except Exception] clause handles, are outside
    the model.  JSON numbers with a fractional part are left out. *)

From Stdlib Require Import ZArith.
From stdpp Require Import base strings gmap list pretty.

Set Warnings "-register-all".
Open Scope string_scope.

(** ** Python values and exceptions *)

(** What the provider's SDK hands back after decoding JSON: [response.data]
    is a list of such values.  A [dict] keeps its insertion order. *)
Inductive pyval :=
| PNone
| PBool (b : bool)
| PInt (z : Z)
| PStr (s : string)
| PList (l : list pyval)
| PDict (d : list (string * pyval)).

(** [ResponseError] stands for the SDK's class and its subclasses, all of
    which [except ResponseError] handles; [StdException name] is any other
    subclass of [Exception]. *)
Inductive exn_class :=
| ResponseError
| StdException (name : string).

(** An exception value: its class and the text [str(e)] shows. *)
Record exn := Exn { exn_cls : exn_class; exn_text : string }.

Definition is_ResponseError (e : exn) : bool :=
  match exn_cls e with ResponseError => true | StdException _ => false end.

Definition is_Exception (e : exn) : bool := true.

Definition ValueError (text : string) : exn := Exn (StdException "ValueError") text.
Definition KeyError (text : string) : exn := Exn (StdException "KeyError") text.
Definition IndexError (text : string) : exn := Exn (StdException "IndexError") text.
Definition TypeError (text : string) : exn := Exn (StdException "TypeError") text.

Definition LF : string := String (Ascii.ascii_of_nat 10) EmptyString.

Definition assoc_get (d : list (string * pyval)) (k : string) : option pyval :=
  snd <$> List.find (fun kv => bool_decide (fst kv = k)) d.

(** [v[k]] for a [str] literal [k] without quotes or escapes, so that
    [repr(k)] is [k] between single quotes (CPython 3.11 wording of the
    [TypeError] texts). *)
Definition getitem_key (v : pyval) (k : string) : exn + pyval :=
  match v with
  | PDict d =>
      match assoc_get d k with
      | Some x => inr x
      | None => inl (KeyError ("'" +:+ k +:+ "'"))
      end
  | PList _ => inl (TypeError "list indices must be integers or slices, not str")
  | PStr _ => inl (TypeError "string indices must be integers, not 'str'")
  | PNone => inl (TypeError "'NoneType' object is not subscriptable")
  | PBool _ => inl (TypeError "'bool' object is not subscriptable")
  | PInt _ => inl (TypeError "'int' object is not subscriptable")
  end.

(** [v[0]]; the keys of a decoded JSON object are strings, so [0] is never
    one of them. *)
Definition getitem_0 (v : pyval) : exn + pyval :=
  match v with
  | PList (x :: _) => inr x
  | PList [] => inl (IndexError "list index out of range")
  | PStr (String c _) => inr (PStr (String c EmptyString))
  | PStr EmptyString => inl (IndexError "string index out of range")
  | PDict _ => inl (KeyError "0")
  | PNone => inl (TypeError "'NoneType' object is not subscriptable")
  | PBool _ => inl (TypeError "'bool' object is not subscriptable")
  | PInt _ => inl (TypeError "'int' object is not subscriptable")
  end.

(** The interpreter's builtins the script relies on: what an f-string puts
    in place of [{v}], and [int(s)] on a [str]. *)
Class Interpreter := {
  py_format : pyval -> string;
  py_format_str : forall s, py_format (PStr s) = s;
  py_int : string -> exn + Z
}.

(** ** Configuration *)

Definition REQUIRED_ENV_VARS : list string :=
  [ "AMADEUS_CLIENT_ID";
    "AMADEUS_CLIENT_SECRET";
    "SENDER_EMAIL";
    "SENDER_EMAIL_PASSWORD";
    "RECIPIENT_EMAIL" ].

(** [os.getenv(var)] is [env !! var]. *)
Definition getenv (env : gmap string string) (var : string) : option string :=
  env !! var.

Definition getenv_default (env : gmap string string) (var default : string) : string :=
  match env !! var with Some s => s | None => default end.

(** [not os.getenv(var)]: unset, or set to the empty string. *)
Definition not_getenv (env : gmap string string) (var : string) : bool :=
  match getenv env var with
  | None => true
  | Some s => bool_decide (s = "")
  end.

Definition validate_env_vars (env : gmap string string) : exn + unit :=
  let missing_vars := List.filter (not_getenv env) REQUIRED_ENV_VARS in
  match missing_vars with
  | [] => inr tt
  | _ :: _ =>
      inl (ValueError ("Missing required environment variables: "
                       +:+ String.concat ", " missing_vars))
  end.

Record Config := {
  ORIGIN_AIRPORTS : list string;
  DESTINATION_AIRPORTS : list string;
  AIRLINES : list string;
  MAX_PRICE : Z;
  DAYS_AHEAD : Z
}.

Definition CONFIG : Config := {|
  ORIGIN_AIRPORTS := ["LGA"; "JFK"];
  DESTINATION_AIRPORTS := ["OAK"; "SJC"];
  AIRLINES := ["B6"; "UA"; "AA"];
  MAX_PRICE := 500;
  DAYS_AHEAD := 1
|}.

(** ** The collaborators *)

(** The keyword arguments of [amadeus.shopping.flight_offers_search.get];
    [max_] is the argument [max]. *)
Record Request := {
  originLocationCode : string;
  destinationLocationCode : string;
  departureDate : string;
  adults : Z;
  max_ : Z;
  nonStop : bool;
  includedAirlineCodes : string;
  maxPrice : Z
}.

(** The part of the SDK's response object the script reads. *)
Record Response := { data : option (list pyval) }.

(** The [MIMEMultipart] message: its three headers and the text part
    attached to it. *)
Record Message := {
  msg_From : option string;
  msg_To : option string;
  msg_Subject : string;
  msg_body : string
}.

Inductive level := INFO | ERROR.

(** What a run does to the outside, in the order it does it. *)
Inductive event :=
| Log (lvl : level) (text : string)
| ClientInit (client_id client_secret : option string)
| Query (req : Request)
| SmtpOpen (host : string) (port : Z)
| SmtpStartTls
| SmtpLogin (user password : option string)
| SmtpSend (msg : Message)
| SmtpExit.

(** The Amadeus service, the SMTP server and the clock.  [Remote] is whatever
    state they keep between calls; a call raises or returns.
    [strftime_days_ahead k] is
    [(datetime.now() + timedelta(days=k)).strftime('%Y-%m-%d')], for [k] in
    the range of [timedelta]. *)
Record Collaborators := {
  Remote : Type;
  amadeus_Client : option string -> option string -> Remote -> (exn + unit) * Remote;
  flight_offers_search_get : Request -> Remote -> (exn + Response) * Remote;
  strftime_days_ahead : Z -> Remote -> string;
  SMTP_new : string -> Z -> Remote -> (exn + unit) * Remote;
  SMTP_starttls : Remote -> (exn + unit) * Remote;
  SMTP_login : option string -> option string -> Remote -> (exn + unit) * Remote;
  SMTP_send_message : Message -> Remote -> (exn + unit) * Remote;
  SMTP_exit : Remote -> (exn + unit) * Remote
}.

Record World (X : Collaborators) := MkWorld {
  remote : Remote X;
  trace : list event
}.
Arguments MkWorld {X} _ _.
Arguments remote {X} _.
Arguments trace {X} _.

(** ** Computations that raise and act on the world *)

Definition M (X : Collaborators) (A : Type) : Type :=
  World X -> (exn + A) * World X.

Definition ret {X A} (a : A) : M X A := fun w => (inr a, w).

Definition raise {X A} (e : exn) : M X A := fun w => (inl e, w).

Definition bind {X A B} (m : M X A) (k : A -> M X B) : M X B :=
  fun w =>
    match m w with
    | (inr a, w') => k a w'
    | (inl e, w') => (inl e, w')
    end.

Definition lift {X A} (r : exn + A) : M X A := fun w => (r, w).

Notation "x <- m ;; k" := (bind m (fun x => k))
  (at level 100, m at next level, right associativity).
Notation "m ;; k" := (bind m (fun _ => k))
  (at level 100, right associativity).
Notation "'let?' x := r 'in' k" :=
  (match r with inr x => k | inl e => inl e end)
  (at level 10, x name, r at level 100, k at level 200).

(** [try: body / except C as e: handler e], where [handles] tells the
    instances of [C]. *)
Definition try_except {X A} (body : M X A) (handles : exn -> bool)
    (handler : exn -> M X A) : M X A :=
  fun w =>
    match body w with
    | (inr a, w') => (inr a, w')
    | (inl e, w') => if handles e then handler e w' else (inl e, w')
    end.

(** A call to a collaborator: the call is recorded, then it answers. *)
Definition call {X A} (ev : event) (f : Remote X -> (exn + A) * Remote X) : M X A :=
  fun w =>
    let answer := f (remote w) in
    (answer.1, MkWorld answer.2 (trace w ++ [ev])%list).

(** [logging.info] and [logging.error]: the record goes to the handlers,
    and a failing handler does not raise. *)
Definition logging {X} (lvl : level) (text : string) : M X unit :=
  fun w => (inr tt, MkWorld (remote w) (trace w ++ [Log lvl text])%list).

(** [for x in xs: s = body x s], with the variables the loop updates
    gathered in [s]. *)
Fixpoint for_each {X A S} (xs : list A) (body : A -> S -> M X S) (s : S) : M X S :=
  match xs with
  | [] => ret s
  | x :: xs' => s' <- body x s ;; for_each xs' body s'
  end.

(** [with server: body]: [server.__exit__] runs on both ways out, and an
    exception it raises replaces the body's. *)
Definition with_server {X} (body : M X unit) : M X unit :=
  fun w =>
    match body w with
    | (inr _, w1) => call SmtpExit (SMTP_exit X) w1
    | (inl e, w1) =>
        match call SmtpExit (SMTP_exit X) w1 with
        | (inr _, w2) => (inl e, w2)
        | (inl e', w2) => (inl e', w2)
        end
    end.

(** ** The script *)

Section Script.
Context {I : Interpreter} (X : Collaborators).

Definition FlightNotifier_init (env : gmap string string) : M X unit :=
  let client_id := getenv env "AMADEUS_CLIENT_ID" in
  let client_secret := getenv env "AMADEUS_CLIENT_SECRET" in
  try_except
    (call (ClientInit client_id client_secret)
          (amadeus_Client X client_id client_secret))
    is_Exception
    (fun e =>
       logging ERROR ("Failed to initialize Amadeus client: " +:+ exn_text e) ;;
       raise e).

Definition build_request (cfg : Config) (search_date origin destination : string)
    : Request :=
  {| originLocationCode := origin;
     destinationLocationCode := destination;
     departureDate := search_date;
     adults := 1;
     max_ := 10;
     nonStop := true;
     includedAirlineCodes := String.concat "," (AIRLINES cfg);
     maxPrice := MAX_PRICE cfg |}.

(** The body of the inner loop.  Only the call can raise, and it comes
    before [extend], so the handler sees [found_flights] as it was. *)
Definition search_pair (cfg : Config) (search_date origin destination : string)
    (found_flights : list pyval) : M X (list pyval) :=
  try_except
    (let req := build_request cfg search_date origin destination in
     response <- call (Query req) (flight_offers_search_get X req) ;;
     match data response with
     | Some (x :: l) =>
         logging INFO ("Found " +:+ pretty (length (x :: l)) +:+ " flights from "
                       +:+ origin +:+ " to " +:+ destination) ;;
         ret (found_flights ++ x :: l)%list
     | Some [] | None => ret found_flights
     end)
    is_ResponseError
    (fun error =>
       logging ERROR ("Error searching flights from " +:+ origin +:+ " to "
                      +:+ destination +:+ ": " +:+ exn_text error) ;;
       ret found_flights).

Definition search_flights (cfg : Config) : M X (list pyval) :=
  fun w =>
    let found_flights := [] in
    let search_date := strftime_days_ahead X (DAYS_AHEAD cfg) (remote w) in
    for_each (ORIGIN_AIRPORTS cfg)
      (fun origin =>
         for_each (DESTINATION_AIRPORTS cfg)
           (fun destination => search_pair cfg search_date origin destination))
      found_flights w.

(** One turn of the loop over [flights]: three [body += ...]. *)
Definition append_flight (body : string) (flight : pyval) : exn + string :=
  let? o := getitem_key flight "originLocationCode" in
  let? d := getitem_key flight "destinationLocationCode" in
  let body := body +:+ "From: " +:+ py_format o +:+ " To: " +:+ py_format d +:+ LF in
  let? codes := getitem_key flight "validatingAirlineCodes" in
  let? a := getitem_0 codes in
  let body := body +:+ "Airline: " +:+ py_format a +:+ LF in
  let? price := getitem_key flight "price" in
  let? total := getitem_key price "total" in
  inr (body +:+ "Price: $" +:+ py_format total +:+ LF +:+ LF).

Fixpoint append_flights (flights : list pyval) (body : string) : exn + string :=
  match flights with
  | [] => inr body
  | flight :: rest =>
      let? body' := append_flight body flight in
      append_flights rest body'
  end.

(** Lines 92 to 103: the message built from the offers. *)
Definition compose_message (env : gmap string string) (flights : list pyval)
    : exn + Message :=
  let subject := "Flight Alert: " +:+ pretty (length flights) +:+ " Direct Flights Found!" in
  let? body := append_flights flights ("Direct Flights Found:" +:+ LF +:+ LF) in
  inr {| msg_From := getenv env "SENDER_EMAIL";
         msg_To := getenv env "RECIPIENT_EMAIL";
         msg_Subject := subject;
         msg_body := body |}.

(** Lines 105 to 110: the SMTP session. *)
Definition deliver (env : gmap string string) (msg : Message) : M X unit :=
  let host := getenv_default env "SMTP_SERVER" "smtp.gmail.com" in
  port <- lift (match getenv env "SMTP_PORT" with
                | Some s => py_int s
                | None => inr 587%Z
                end) ;;
  call (SmtpOpen host port) (SMTP_new X host port) ;;
  with_server
    (call SmtpStartTls (SMTP_starttls X) ;;
     (let user := getenv env "SENDER_EMAIL" in
      let password := getenv env "SENDER_EMAIL_PASSWORD" in
      call (SmtpLogin user password) (SMTP_login X user password)) ;;
     call (SmtpSend msg) (SMTP_send_message X msg) ;;
     logging INFO "Email sent successfully!").

Definition send_email_try (env : gmap string string) (flights : list pyval) : M X unit :=
  msg <- lift (compose_message env flights) ;;
  deliver env msg.

Definition send_email (env : gmap string string) (flights : list pyval) : M X unit :=
  match flights with
  | [] => logging INFO "No flights found. No email sent."
  | _ :: _ =>
      try_except (send_email_try env flights) is_Exception
        (fun e => logging ERROR ("Error sending email: " +:+ exn_text e))
  end.

Definition main_try (env : gmap string string) (cfg : Config) : M X unit :=
  lift (validate_env_vars env) ;;
  FlightNotifier_init env ;;
  flights <- search_flights cfg ;;
  send_email env flights.

Definition main (env : gmap string string) (cfg : Config) : M X unit :=
  try_except (main_try env cfg) is_Exception
    (fun e => logging ERROR ("Unexpected error in main function: " +:+ exn_text e)).

(** The status the interpreter exits with after [main()]: 0 when it
    returns, 1 when an exception leaves it. *)
Definition exit_status (env : gmap string string) (cfg : Config) (w : World X) : Z :=
  match main env cfg w with
  | (inr _, _) => 0
  | (inl _, _) => 1
  end.

End Script.

(** ** Observations on a run *)

(** The provider queries, SMTP sessions, messages handed to the server and
    log records in a trace, each in the order they happened. *)
Definition queries (tr : list event) : list Request :=
  omap (fun ev => match ev with Query req => Some req | _ => None end) tr.

Definition notifier_calls (tr : list event) : list (string * Z) :=
  omap (fun ev => match ev with SmtpOpen h p => Some (h, p) | _ => None end) tr.

Definition sent_messages (tr : list event) : list Message :=
  omap (fun ev => match ev with SmtpSend msg => Some msg | _ => None end) tr.

Definition log_records (tr : list event) : list (level * string) :=
  omap (fun ev => match ev with Log lvl text => Some (lvl, text) | _ => None end) tr.

(** The pairs in the order of the two loops: origins outside, destinations
    inside. *)
Definition pairs (cfg : Config) : list (string * string) :=
  list_prod (ORIGIN_AIRPORTS cfg) (DESTINATION_AIRPORTS cfg).

(** What the provider answers to a sequence of requests made one after the
    other from the state [r]. *)
Fixpoint provider_replies (X : Collaborators) (reqs : list Request) (r : Remote X)
    : list (exn + Response) :=
  match reqs with
  | [] => []
  | req :: reqs' =>
      let '(reply, r') := flight_offers_search_get X req r in
      reply :: provider_replies X reqs' r'
  end.

Fixpoint provider_state (X : Collaborators) (reqs : list Request) (r : Remote X)
    : Remote X :=
  match reqs with
  | [] => r
  | req :: reqs' => provider_state X reqs' (snd (flight_offers_search_get X req r))
  end.

(** The offers of a reply: those of a successful response, none otherwise. *)
Definition offers_of (reply : exn + Response) : list pyval :=
  match reply with
  | inr {| data := Some l |} => l
  | inr {| data := None |} => []
  | inl _ => []
  end.

(** A reply that is an exception other than [ResponseError]. *)
Definition escapes (reply : exn + Response) : bool :=
  match reply with
  | inl e => negb (is_ResponseError e)
  | inr _ => false
  end.

(** The records the inner loop body writes for one pair, given the reply. *)
Definition pair_log (origin destination : string) (reply : exn + Response)
    : list event :=
  match reply with
  | inr {| data := Some (x :: l) |} =>
      [Log INFO ("Found " +:+ pretty (length (x :: l)) +:+ " flights from "
                 +:+ origin +:+ " to " +:+ destination)]
  | inr _ => []
  | inl e =>
      if is_ResponseError e then
        [Log ERROR ("Error searching flights from " +:+ origin +:+ " to "
                    +:+ destination +:+ ": " +:+ exn_text e)]
      else []
  end.

(** The four fields the message shows for an offer, when it has them. *)
Definition offer_fields (flight : pyval) : option (pyval * pyval * pyval * pyval) :=
  match getitem_key flight "originLocationCode",
        getitem_key flight "destinationLocationCode",
        getitem_key flight "validatingAirlineCodes",
        getitem_key flight "price" with
  | inr o, inr d, inr codes, inr price =>
      match getitem_0 codes, getitem_key price "total" with
      | inr a, inr total => Some (o, d, a, total)
      | _, _ => None
      end
  | _, _, _, _ => None
  end.


(** A variable is missing when it is unset or set to the empty string. *)
Definition unset_or_empty (env : gmap string string) (var : string) : Prop :=
  env !! var = None \/ env !! var = Some "".

(** The requests of a run of [search_flights] started in [w], in the order
    of the loops. *)
Definition pair_requests (X : Collaborators) (cfg : Config) (w : World X)
    : list Request :=
  let search_date := strftime_days_ahead X (DAYS_AHEAD cfg) (remote w) in
  map (fun p => build_request cfg search_date p.1 p.2) (pairs cfg).

(** The trace of the loops over the pairs [ps] when the provider's replies
    are [replies] and none of them escapes. *)
Fixpoint search_events (cfg : Config) (search_date : string)
    (ps : list (string * string)) (replies : list (exn + Response)) : list event :=
  match ps, replies with
  | p :: ps', reply :: replies' =>
      (Query (build_request cfg search_date p.1 p.2) :: pair_log p.1 p.2 reply)
      ++ search_events cfg search_date ps' replies'
  | _, _ => []
  end%list.

(** What one turn of the inner loop leaves in [found_flights], or raises. *)
Definition pair_result (found_flights : list pyval) (reply : exn + Response)
    : exn + list pyval :=
  match reply with
  | inl e => if is_ResponseError e then inr found_flights else inl e
  | inr _ => inr (found_flights ++ offers_of reply)%list
  end.

(** The loops only query and log. *)
Definition search_only (ev : event) : Prop :=
  match ev with
  | Query _ | Log _ _ => True
  | _ => False
  end.

(** The block of the message body for an offer with the given origin,
    destination, airline code and total price. *)
Definition offer_block `{Interpreter} (fields : pyval * pyval * pyval * pyval)
    : string :=
  let '(o, d, a, total) := fields in
  "From: " +:+ py_format o +:+ " To: " +:+ py_format d +:+ LF
  +:+ "Airline: " +:+ py_format a +:+ LF
  +:+ "Price: $" +:+ py_format total +:+ LF +:+ LF.

(** What a step adds to the trace. *)
Definition adds {X : Collaborators} (w w' : World X) (added : list event) : Prop :=
  trace w' = (trace w ++ added)%list.

(** [needle in haystack]. *)
Definition substring (needle haystack : string) : Prop :=
  exists pre post, haystack = pre +:+ needle +:+ post.

(** ** Concrete collaborators *)

Module Demo.

Definition format (v : pyval) : string :=
  match v with
  | PStr s => s
  | PInt z => pretty z
  | PBool true => "True"
  | PBool false => "False"
  | PNone => "None"
  | PList _ => "[...]"
  | PDict _ => "{...}"
  end.

Fixpoint digits (s : string) (acc : Z) : option Z :=
  match s with
  | EmptyString => Some acc
  | String c s' =>
      let n := Z.of_nat (Ascii.nat_of_ascii c) in
      if ((48 <=? n) && (n <=? 57))%Z then digits s' (10 * acc + (n - 48))%Z
      else None
  end.

Definition int_of_str (s : string) : exn + Z :=
  match s, digits s 0 with
  | String _ _, Some z => inr z
  | _, _ => inl (ValueError ("invalid literal for int() with base 10: '" +:+ s +:+ "'"))
  end.

#[export] Instance interpreter : Interpreter :=
  {| py_format := format;
     py_format_str := fun s => eq_refl;
     py_int := int_of_str |}.

(** A provider that answers by route, a client that always starts, and a
    mail server that accepts or refuses everything; the remote state is
    the recipient's mailbox. *)
Definition collaborators (provider : string -> string -> exn + Response)
    (smtp_fault : option exn) : Collaborators :=
  {| Remote := list Message;
     amadeus_Client := fun _ _ r => (inr tt, r);
     flight_offers_search_get := fun req r =>
       (provider (originLocationCode req) (destinationLocationCode req), r);
     strftime_days_ahead := fun _ _ => "2025-01-02";
     SMTP_new := fun _ _ r =>
       (match smtp_fault with Some e => inl e | None => inr tt end, r);
     SMTP_starttls := fun r => (inr tt, r);
     SMTP_login := fun _ _ r => (inr tt, r);
     SMTP_send_message := fun msg r => (inr tt, r ++ [msg])%list;
     SMTP_exit := fun r => (inr tt, r) |}.

Definition offer (origin destination airline total : string) : pyval :=
  PDict [ ("originLocationCode", PStr origin);
          ("destinationLocationCode", PStr destination);
          ("validatingAirlineCodes", PList [PStr airline]);
          ("price", PDict [("currency", PStr "USD"); ("total", PStr total)]) ].

Definition offer1 : pyval := offer "JFK" "OAK" "B6" "420.00".
Definition offer2 : pyval := offer "JFK" "OAK" "UA" "480.00".

(** A connecting itinerary, and an offer without a price. *)
Definition connecting_offer : pyval :=
  PDict [ ("originLocationCode", PStr "LGA");
          ("destinationLocationCode", PStr "OAK");
          ("validatingAirlineCodes", PList [PStr "AA"]);
          ("price", PDict [("total", PStr "310.00")]);
          ("nonStop", PBool false) ].

Definition unpriced_offer : pyval :=
  PDict [ ("originLocationCode", PStr "LGA");
          ("destinationLocationCode", PStr "SJC");
          ("validatingAirlineCodes", PList [PStr "AA"]) ].

Definition unsupported_route : exn :=
  Exn ResponseError "[400] unsupported route".

(** Two offers for JFK to OAK, a provider error for every other route. *)
Definition provider_two_offers (origin destination : string) : exn + Response :=
  if bool_decide (origin = "JFK") && bool_decide (destination = "OAK")
  then inr {| data := Some [offer1; offer2] |}
  else inl unsupported_route.

Definition provider_empty (origin destination : string) : exn + Response :=
  inr {| data := Some [] |}.

(** A connecting itinerary for LGA to OAK, nothing elsewhere. *)
Definition provider_connecting (origin destination : string) : exn + Response :=
  if bool_decide (origin = "LGA") && bool_decide (destination = "OAK")
  then inr {| data := Some [connecting_offer] |}
  else inr {| data := Some [] |}.

(** An offer without a price for LGA to SJC, nothing elsewhere. *)
Definition provider_unpriced (origin destination : string) : exn + Response :=
  if bool_decide (origin = "LGA") && bool_decide (destination = "SJC")
  then inr {| data := Some [unpriced_offer] |}
  else inr {| data := None |}.

(** An exception that is not a [ResponseError] on the second route. *)
Definition provider_crash (origin destination : string) : exn + Response :=
  if bool_decide (origin = "LGA") && bool_decide (destination = "SJC")
  then inl (Exn (StdException "RuntimeError") "socket closed")
  else inr {| data := Some [offer1] |}.

Definition env : gmap string string :=
  list_to_map [ ("AMADEUS_CLIENT_ID", "id");
                ("AMADEUS_CLIENT_SECRET", "secret");
                ("SENDER_EMAIL", "alerts@example.org");
                ("SENDER_EMAIL_PASSWORD", "hunter2");
                ("RECIPIENT_EMAIL", "me@example.org") ].

(** The same with the recipient absent, and with it set but empty. *)
Definition env_no_recipient : gmap string string := delete "RECIPIENT_EMAIL" env.
Definition env_empty_recipient : gmap string string := <["RECIPIENT_EMAIL" := ""]> env.

Definition start (X : Collaborators) (r : Remote X) : World X := MkWorld r [].

End Demo.

(** ** Further observations and collaborators *)

(** The events of an SMTP session in a trace, in order. *)
Definition smtp_events (tr : list event) : list event :=
  List.filter
    (fun ev =>
       match ev with
       | SmtpOpen _ _ | SmtpStartTls | SmtpLogin _ _ | SmtpSend _ | SmtpExit => true
       | _ => false
       end)
    tr.

(** The credentials the Amadeus client was built with, and those handed to
    [server.login]. *)
Definition client_inits (tr : list event) : list (option string * option string) :=
  omap (fun ev => match ev with ClientInit i s => Some (i, s) | _ => None end) tr.

Definition logins (tr : list event) : list (option string * option string) :=
  omap (fun ev => match ev with SmtpLogin u p => Some (u, p) | _ => None end) tr.

(** A value that is set and not empty. *)
Definition filled (v : option string) : Prop :=
  exists s, v = Some s /\ s <> "".

(** The port [deliver] connects to: [int(os.getenv('SMTP_PORT', 587))]. *)
Definition smtp_port `{Interpreter} (env : gmap string string) : exn + Z :=
  match getenv env "SMTP_PORT" with
  | Some s => py_int s
  | None => inr 587%Z
  end.

(** The exception that the subscripts of lines 99 to 101 raise on an offer,
    taken in the order they are evaluated, if any of them raises. *)
Definition offer_error (flight : pyval) : option exn :=
  match getitem_key flight "originLocationCode" with
  | inl e => Some e
  | inr _ =>
  match getitem_key flight "destinationLocationCode" with
  | inl e => Some e
  | inr _ =>
  match getitem_key flight "validatingAirlineCodes" with
  | inl e => Some e
  | inr codes =>
  match getitem_0 codes with
  | inl e => Some e
  | inr _ =>
  match getitem_key flight "price" with
  | inl e => Some e
  | inr price =>
  match getitem_key price "total" with
  | inl e => Some e
  | inr _ => None
  end end end end end end.

Module Faults.

(** Which calls of a run fail, and with what. *)
Record plan := {
  client_fault : option exn;
  open_fault : option exn;
  starttls_fault : option exn;
  login_fault : option exn;
  send_fault : option exn;
  exit_fault : option exn
}.

Definition none : plan :=
  {| client_fault := None; open_fault := None; starttls_fault := None;
     login_fault := None; send_fault := None; exit_fault := None |}.

Definition outcome (fault : option exn) : exn + unit :=
  match fault with Some e => inl e | None => inr tt end.

(** A provider that answers by route and counts its calls, and a client and
    a mail server that fail as the plan says; the remote state is the number
    of provider calls so far and the recipient's mailbox. *)
Definition collaborators (provider : nat -> string -> string -> exn + Response)
    (p : plan) : Collaborators :=
  {| Remote := nat * list Message;
     amadeus_Client := fun _ _ r => (outcome (client_fault p), r);
     flight_offers_search_get := fun req r =>
       (provider r.1 (originLocationCode req) (destinationLocationCode req),
        (S r.1, r.2));
     strftime_days_ahead := fun _ _ => "2025-01-02";
     SMTP_new := fun _ _ r => (outcome (open_fault p), r);
     SMTP_starttls := fun r => (outcome (starttls_fault p), r);
     SMTP_login := fun _ _ r => (outcome (login_fault p), r);
     SMTP_send_message := fun msg r =>
       match send_fault p with
       | Some e => (inl e, r)
       | None => (inr tt, (r.1, r.2 ++ [msg])%list)
       end;
     SMTP_exit := fun r => (outcome (exit_fault p), r) |}.

(** One offer per route for the first two calls, then the provider's quota
    is spent and it answers with an error of its own. *)
Definition provider_quota (calls : nat) (origin destination : string)
    : exn + Response :=
  if Nat.ltb calls 2
  then inr {| data := Some [Demo.offer origin destination "B6" "199.00"] |}
  else inl (Exn ResponseError "[429] quota exceeded").

(** One offer for the first route, then an exception that is not a
    [ResponseError]. *)
Definition provider_breaks (calls : nat) (origin destination : string)
    : exn + Response :=
  if Nat.ltb calls 1
  then inr {| data := Some [Demo.offer origin destination "UA" "250.00"] |}
  else inl (Exn (StdException "TimeoutError") "timed out").

Definition start (X : Collaborators) (r : Remote X) : World X := MkWorld r [].

End Faults.

(** * Properties *)

#[local] Existing Instance Demo.interpreter.


(** ** Strings *)

Lemma append_assoc (a b c : string) : (a +:+ b) +:+ c = a +:+ b +:+ c.
Proof.
  induction a as [|ch a IH]; [done |].
  change (String ch ((a +:+ b) +:+ c) = String ch (a +:+ b +:+ c)).
  by rewrite IH.
Qed.

Lemma append_empty_r (a : string) : a +:+ "" = a.
Proof.
  induction a as [|ch a IH]; [done |].
  change (String ch (a +:+ "") = String ch a). by rewrite IH.
Qed.

Lemma substring_refl (s : string) : substring s s.
Proof. exists "", "". change (s = s +:+ ""). by rewrite append_empty_r. Qed.

Lemma substring_prepend (v pre s : string) : substring v s -> substring v (pre +:+ s).
Proof.
  intros (a & b & ->). exists (pre +:+ a), b. by rewrite append_assoc.
Qed.

Lemma substring_append (v s post : string) : substring v s -> substring v (s +:+ post).
Proof.
  intros (a & b & ->). exists a, (b +:+ post). by rewrite !append_assoc.
Qed.

(** Every element of a list shows in the list joined by a separator. *)
Lemma substring_concat (sep v : string) (l : list string) :
  In v l -> substring v (String.concat sep l).
Proof.
  induction l as [|x l IH]; [intros [] |].
  intros [-> | Hin].
  - destruct l as [|y l]; simpl; [apply substring_refl |].
    apply substring_append, substring_refl.
  - destruct l as [|y l]; [destruct Hin |].
    change (String.concat sep (x :: y :: l))
      with (x +:+ sep +:+ String.concat sep (y :: l)).
    by apply substring_prepend, substring_prepend, IH.
Qed.

(** ** Configuration validation *)

Lemma not_getenv_spec (env : gmap string string) (var : string) :
  not_getenv env var = true <-> unset_or_empty env var.
Proof.
  unfold not_getenv, getenv, unset_or_empty.
  destruct (env !! var) as [s|]; [| by intuition].
  rewrite bool_decide_eq_true. split.
  - intros ->. by right.
  - intros [? | [= ?]]; done.
Qed.

Lemma not_getenv_empty_as_unset (env : gmap string string) (var v : string) :
  not_getenv (<[var := ""]> env) v = not_getenv (delete var env) v.
Proof.
  unfold not_getenv, getenv.
  destruct (decide (var = v)) as [-> | Hne].
  - by rewrite lookup_insert_eq, lookup_delete_eq.
  - by rewrite lookup_insert_ne, lookup_delete_ne.
Qed.

Lemma validate_env_vars_missing (env : gmap string string) :
  (exists var, In var REQUIRED_ENV_VARS /\ unset_or_empty env var) ->
  exists text, validate_env_vars env = inl (ValueError text).
Proof.
  intros (var & Hin & Hmiss).
  assert (Hf : In var (List.filter (not_getenv env) REQUIRED_ENV_VARS)).
  { apply filter_In. split; [done | by apply not_getenv_spec]. }
  unfold validate_env_vars.
  destruct (List.filter (not_getenv env) REQUIRED_ENV_VARS); [destruct Hf | by eexists].
Qed.

(** C10. [validate_env_vars] makes no difference between a required
    variable set to the empty string and an absent one.  When some required
    variable is unset or empty it raises a [ValueError] whose text lists
    the missing variables, in the order of [REQUIRED_ENV_VARS] and separated
    by a comma, so that every such variable is named in it; when every
    required variable has a non-empty value it returns. *)
Theorem validate_env_vars_spec (env : gmap string string) :
  (forall var, validate_env_vars (<[var := ""]> env) = validate_env_vars (delete var env))
  /\ ((exists var, In var REQUIRED_ENV_VARS /\ unset_or_empty env var) ->
      exists text,
        validate_env_vars env = inl (ValueError text)
        /\ text = "Missing required environment variables: "
                  +:+ String.concat ", " (List.filter (not_getenv env) REQUIRED_ENV_VARS)
        /\ forall var, In var REQUIRED_ENV_VARS -> unset_or_empty env var ->
                       substring var text)
  /\ ((forall var, In var REQUIRED_ENV_VARS -> ~ unset_or_empty env var) ->
      validate_env_vars env = inr tt).
Proof.
  split; [| split].
  - intros var. unfold validate_env_vars.
    by rewrite (filter_ext (not_getenv (<[var := ""]> env)) (not_getenv (delete var env))
                  (not_getenv_empty_as_unset env var)).
  - intros (var & Hin & Hmiss).
    assert (Hf : In var (List.filter (not_getenv env) REQUIRED_ENV_VARS)).
    { apply filter_In. split; [done | by apply not_getenv_spec]. }
    unfold validate_env_vars.
    destruct (List.filter (not_getenv env) REQUIRED_ENV_VARS) as [|m ms] eqn:E;
      [destruct Hf |].
    eexists. split; [reflexivity |]. split; [reflexivity |].
    intros v Hv Hv'. apply substring_prepend, substring_concat.
    rewrite <- E. apply filter_In. split; [done | by apply not_getenv_spec].
  - intros Hall. unfold validate_env_vars.
    destruct (List.filter (not_getenv env) REQUIRED_ENV_VARS) as [|m ms] eqn:E; [done |].
    assert (Hm : In m (List.filter (not_getenv env) REQUIRED_ENV_VARS))
      by (rewrite E; by left).
    apply filter_In in Hm as [Hin Hm]. apply not_getenv_spec in Hm.
    by destruct (Hall m Hin).
Qed.

Lemma validate_env_vars_witness :
  (exists text,
      validate_env_vars Demo.env_empty_recipient = inl (ValueError text)
      /\ substring "RECIPIENT_EMAIL" text)
  /\ validate_env_vars Demo.env = inr tt.
Proof.
  split.
  - destruct (proj1 (proj2 (validate_env_vars_spec Demo.env_empty_recipient)))
      as (text & Hrun & _ & Hnamed).
    + exists "RECIPIENT_EMAIL". split; [vm_compute; tauto | right; reflexivity].
    + exists text. split; [exact Hrun |].
      apply Hnamed; [vm_compute; tauto | right; reflexivity].
  - apply (proj2 (proj2 (validate_env_vars_spec Demo.env))).
    intros var Hin. unfold REQUIRED_ENV_VARS in Hin.
    repeat (destruct Hin as [<- | Hin];
            [intros [H | H]; vm_compute in H; discriminate H |]).
    destruct Hin.
Defined.

(** ** The loops of [search_flights] *)

Section Loops.
Context (X : Collaborators).

Lemma for_each_app {A S} (xs ys : list A) (body : A -> S -> M X S) (s : S) (w : World X) :
  for_each (xs ++ ys)%list body s w
  = (s' <- for_each xs body s ;; for_each ys body s') w.
Proof.
  revert s w. induction xs as [|x xs IH]; intros s w; [done |].
  simpl. unfold bind. cbv beta. destruct (body x s w) as [[e | s1] w1]; [done |].
  rewrite IH. by unfold bind.
Qed.

Lemma for_each_map {A B S} (f : A -> B) (xs : list A) (body : B -> S -> M X S)
    (s : S) (w : World X) :
  for_each (map f xs) body s w = for_each xs (fun x => body (f x)) s w.
Proof.
  revert s w. induction xs as [|x xs IH]; intros s w; [done |].
  simpl. unfold bind. destruct (body (f x) s w) as [[e | s1] w1]; [done |].
  apply IH.
Qed.

(** Two nested loops are one loop over the product, origins outside. *)
Lemma for_each_nested {A B S} (xs : list A) (ys : list B)
    (body : A -> B -> S -> M X S) (s : S) (w : World X) :
  for_each xs (fun x => for_each ys (body x)) s w
  = for_each (list_prod xs ys) (fun p => body p.1 p.2) s w.
Proof.
  revert s w. induction xs as [|x xs IH]; intros s w; [done |].
  simpl. rewrite for_each_app. unfold bind. rewrite for_each_map. simpl.
  change (fun y : B => body x y) with (body x).
  destruct (for_each ys (body x) s w) as [[e | s1] w1]; [done |].
  apply IH.
Qed.

(** A property of the world that every turn keeps is kept by the loop,
    whichever way it ends. *)
Lemma for_each_keeps {A S} (P : World X -> Prop) (body : A -> S -> M X S) :
  (forall x s w, P w -> P (body x s w).2) ->
  forall xs s w, P w -> P (for_each xs body s w).2.
Proof.
  intros Hbody xs. induction xs as [|x xs IH]; intros s w Hw; [done |].
  simpl. unfold bind. specialize (Hbody x s w Hw).
  destruct (body x s w) as [[e | s1] w1]; [done |].
  by apply IH.
Qed.

(** One turn of the inner loop: the query, then what the reply commands. *)
Lemma search_pair_run (cfg : Config) (search_date origin destination : string)
    (found_flights : list pyval) (w : World X) :
  let req := build_request cfg search_date origin destination in
  let answer := flight_offers_search_get X req (remote w) in
  search_pair X cfg search_date origin destination found_flights w
  = (pair_result found_flights answer.1,
     MkWorld answer.2
       (trace w ++ Query req :: pair_log origin destination answer.1)).
Proof.
  intros req answer. unfold search_pair, try_except, bind, call.
  fold req. fold answer. destruct answer as [[e | [[[|x l] |]]] r]; simpl.
  - unfold logging, ret. destruct (is_ResponseError e); simpl; [| done].
    by rewrite <- (assoc_L app).
  - by rewrite (right_id_L [] app).
  - unfold logging, ret. simpl. by rewrite <- (assoc_L app).
  - by rewrite (right_id_L [] app).
Qed.

(** The loop over the pairs when no reply escapes: every pair is queried,
    and the offers of the replies are appended in order. *)
Lemma search_pairs_run (cfg : Config) (search_date : string)
    (ps : list (string * string)) (found_flights : list pyval) (w : World X) :
  let reqs := map (fun p => build_request cfg search_date p.1 p.2) ps in
  let replies := provider_replies X reqs (remote w) in
  Forall (fun reply => escapes reply = false) replies ->
  for_each ps (fun p => search_pair X cfg search_date p.1 p.2) found_flights w
  = (inr (found_flights ++ concat (map offers_of replies))%list,
     MkWorld (provider_state X reqs (remote w))
       (trace w ++ search_events cfg search_date ps replies)).
Proof.
  revert found_flights w. induction ps as [|[o d] ps IH]; intros found w; simpl.
  - intros _. unfold ret. rewrite !(right_id_L [] app). by destruct w.
  - unfold bind. rewrite search_pair_run. simpl.
    destruct (flight_offers_search_get X (build_request cfg search_date o d) (remote w))
      as [reply r] eqn:E.
    simpl. intros Hok. apply Forall_cons in Hok as [Hreply Hok].
    assert (pair_result found reply = inr (found ++ offers_of reply)%list) as ->.
    { destruct reply as [e | resp]; simpl in *; [| done].
      apply negb_false_iff in Hreply. rewrite Hreply.
      by rewrite (right_id_L [] app). }
    rewrite IH by exact Hok. simpl.
    by rewrite <- !(assoc_L app).
Qed.

Lemma search_flights_flat (cfg : Config) (w : World X) :
  search_flights X cfg w
  = for_each (pairs cfg)
      (fun p => search_pair X cfg (strftime_days_ahead X (DAYS_AHEAD cfg) (remote w)) p.1 p.2)
      [] w.
Proof. unfold search_flights. by rewrite for_each_nested. Qed.

(** [search_flights] when no reply escapes. *)
Lemma search_flights_run (cfg : Config) (w : World X) :
  let reqs := pair_requests X cfg w in
  let replies := provider_replies X reqs (remote w) in
  Forall (fun reply => escapes reply = false) replies ->
  search_flights X cfg w
  = (inr (concat (map offers_of replies)),
     MkWorld (provider_state X reqs (remote w))
       (trace w ++ search_events cfg (strftime_days_ahead X (DAYS_AHEAD cfg) (remote w))
                     (pairs cfg) replies)).
Proof.
  intros reqs replies Hok. rewrite search_flights_flat.
  by rewrite search_pairs_run.
Qed.

Lemma provider_replies_length (reqs : list Request) (r : Remote X) :
  length (provider_replies X reqs r) = length reqs.
Proof.
  revert r. induction reqs as [|req reqs IH]; intros r; simpl; [done |].
  destruct (flight_offers_search_get X req r) as [reply r']. simpl. by rewrite IH.
Qed.

(** A reply that escapes ends the loops at its pair: the exception leaves
    [search_flights] after the query for that pair. *)
Lemma search_flights_escape (cfg : Config) (w : World X)
    (ps1 ps2 : list (string * string)) (p : string * string) (e : exn) :
  let search_date := strftime_days_ahead X (DAYS_AHEAD cfg) (remote w) in
  let reqs1 := map (fun q => build_request cfg search_date q.1 q.2) ps1 in
  let req := build_request cfg search_date p.1 p.2 in
  pairs cfg = (ps1 ++ p :: ps2)%list ->
  Forall (fun reply => escapes reply = false) (provider_replies X reqs1 (remote w)) ->
  (flight_offers_search_get X req (provider_state X reqs1 (remote w))).1 = inl e ->
  is_ResponseError e = false ->
  exists w', search_flights X cfg w = (inl e, w').
Proof.
  intros search_date reqs1 req Hpairs Hok Hreply He.
  rewrite search_flights_flat, Hpairs, for_each_app. unfold bind.
  rewrite search_pairs_run by exact Hok. simpl. unfold bind.
  rewrite search_pair_run. simpl. fold search_date. fold reqs1. fold req.
  rewrite Hreply. simpl. rewrite He. by eexists.
Qed.

End Loops.

(** ** What the loops leave in the trace *)

Lemma queries_app (tr1 tr2 : list event) :
  queries (tr1 ++ tr2)%list = (queries tr1 ++ queries tr2)%list.
Proof. apply omap_app. Qed.

Lemma queries_pair_log (origin destination : string) (reply : exn + Response) :
  queries (pair_log origin destination reply) = [].
Proof.
  destruct reply as [e | [[[|x l] |]]]; simpl; try done.
  by destruct (is_ResponseError e).
Qed.

Lemma queries_search_events (cfg : Config) (search_date : string)
    (ps : list (string * string)) (replies : list (exn + Response)) :
  length replies = length ps ->
  queries (search_events cfg search_date ps replies)
  = map (fun p => build_request cfg search_date p.1 p.2) ps.
Proof.
  revert replies. induction ps as [|p ps IH]; intros [|reply replies] Hlen;
    simpl in *; try done.
  f_equal. rewrite queries_app, queries_pair_log. simpl.
  apply IH. by injection Hlen.
Qed.

Lemma search_events_search_only (cfg : Config) (search_date : string)
    (ps : list (string * string)) (replies : list (exn + Response)) :
  Forall search_only (search_events cfg search_date ps replies).
Proof.
  revert replies. induction ps as [|p ps IH]; intros [|reply replies]; simpl;
    try by constructor.
  constructor; [done |]. apply Forall_app. split; [| apply IH].
  destruct reply as [e | [[[|x l] |]]]; simpl; repeat constructor.
  destruct (is_ResponseError e); by repeat constructor.
Qed.

Lemma search_events_error_logged (cfg : Config) (search_date : string)
    (ps : list (string * string)) (replies : list (exn + Response))
    (i : nat) (p : string * string) (e : exn) :
  ps !! i = Some p -> replies !! i = Some (inl e) -> is_ResponseError e = true ->
  In (Log ERROR ("Error searching flights from " +:+ p.1 +:+ " to " +:+ p.2
                 +:+ ": " +:+ exn_text e))
     (search_events cfg search_date ps replies).
Proof.
  revert replies i. induction ps as [|q ps IH]; intros [|reply replies] [|i] Hp Hr He;
    simpl in *; try done.
  - injection Hp as ->. injection Hr as ->. simpl. rewrite He. right. by left.
  - right. apply in_or_app. right. by eapply IH.
Qed.


Lemma concat_all_nil {A} (lists : list (list A)) :
  Forall (fun l => l = []) lists -> concat lists = [].
Proof. induction 1 as [|l lists -> _ IH]; simpl; done. Qed.

Lemma pair_requests_length (X : Collaborators) (cfg : Config) (w : World X) :
  length (pair_requests X cfg w)
  = length (ORIGIN_AIRPORTS cfg) * length (DESTINATION_AIRPORTS cfg).
Proof. unfold pair_requests, pairs. by rewrite length_map, length_prod. Qed.

(** ** The pair search executor *)

(** Whichever way the loops end, the queries issued are an initial segment
    of the requests for the pairs in loop order. *)
Lemma search_pairs_queries_prefix (X : Collaborators) (cfg : Config)
    (search_date : string) (ps : list (string * string))
    (found_flights : list pyval) (w : World X) :
  exists added,
    adds w (for_each ps (fun p => search_pair X cfg search_date p.1 p.2)
              found_flights w).2 added
    /\ queries added `prefix_of` map (fun p => build_request cfg search_date p.1 p.2) ps.
Proof.
  revert found_flights w. induction ps as [|p ps IH]; intros found w.
  - exists []. split; [unfold adds; simpl; by rewrite (right_id_L [] app) | done].
  - simpl. unfold bind. rewrite search_pair_run.
    destruct (pair_result found _) as [e | found'].
    + eexists. split; [reflexivity |]. simpl. rewrite queries_pair_log.
      apply prefix_cons, prefix_nil.
    + match goal with |- context [for_each ps ?b found' ?w1] =>
        destruct (IH found' w1) as (added & Hadds & Hprefix) end.
      unfold adds in *. simpl in *. eexists. rewrite Hadds, <- (assoc_L app).
      split; [reflexivity |].
      simpl. rewrite queries_app, queries_pair_log. by apply prefix_cons.
Qed.


(** C2. When the provider answers every query with a response or a
    [ResponseError] and the reply to pair [i] is a [ResponseError], the run
    is not aborted: [search_flights] returns, every pair has been queried,
    the error is logged with its pair, and the result is made of the offers
    of the pairs before [i] followed by those of the pairs after it. *)
Theorem search_flights_isolates_errors (X : Collaborators) (cfg : Config)
    (w : World X) (i : nat) (error : exn) :
  let replies := provider_replies X (pair_requests X cfg w) (remote w) in
  Forall (fun reply => escapes reply = false) replies ->
  replies !! i = Some (inl error) ->
  exists w' origin destination,
    search_flights X cfg w
    = (inr (concat (map offers_of (take i replies))
            ++ concat (map offers_of (drop (S i) replies)))%list, w')
    /\ queries (trace w') = (queries (trace w) ++ pair_requests X cfg w)%list
    /\ pairs cfg !! i = Some (origin, destination)
    /\ In (Log ERROR ("Error searching flights from " +:+ origin +:+ " to "
                      +:+ destination +:+ ": " +:+ exn_text error))
          (trace w').
Proof.
  intros replies Hok Hi.
  assert (Hlen : length replies = length (pairs cfg)).
  { unfold replies. rewrite provider_replies_length. unfold pair_requests.
    by rewrite length_map. }
  destruct (lookup_lt_is_Some_2 (pairs cfg) i) as [[origin destination] Hp].
  { rewrite <- Hlen. by eapply lookup_lt_Some. }
  assert (He : is_ResponseError error = true).
  { apply (Forall_lookup_1 _ _ _ _ Hok) in Hi. simpl in Hi.
    by apply negb_false_iff in Hi. }
  eexists _, origin, destination.
  rewrite (search_flights_run X cfg w Hok). fold replies. simpl.
  split; [| split; [| split]].
  - f_equal. rewrite <- (take_drop_middle replies i (inl error) Hi) at 1.
    rewrite map_app, concat_app. simpl. done.
  - simpl. rewrite queries_app. f_equal.
    rewrite queries_search_events by done. done.
  - done.
  - simpl. apply in_or_app. right.
    by apply (search_events_error_logged _ _ _ _ i (origin, destination) error).
Qed.

(** C6. When every pair gets a successful response, the result of
    [search_flights] is the concatenation of the per-pair offer lists in the
    order of the loops, each list as the provider gave it, nothing removed
    and nothing moved; when all the lists are empty the result is the empty
    list, and the function returns it. *)
Theorem search_flights_concatenates (X : Collaborators) (cfg : Config)
    (w : World X) (lists : list (list pyval)) :
  provider_replies X (pair_requests X cfg w) (remote w)
  = map (fun l => inr {| data := Some l |}) lists ->
  exists w',
    search_flights X cfg w = (inr (concat lists), w')
    /\ (Forall (fun l => l = []) lists -> search_flights X cfg w = (inr [], w')).
Proof.
  intros Hreplies.
  assert (Hok : Forall (fun reply => escapes reply = false)
                  (provider_replies X (pair_requests X cfg w) (remote w))).
  { rewrite Hreplies. apply Forall_forall. intros reply Hin.
    apply list_elem_of_In, in_map_iff in Hin as (l & <- & _). done. }
  eexists. rewrite (search_flights_run X cfg w Hok), Hreplies.
  rewrite map_map. simpl. rewrite map_id.
  split; [reflexivity |].
  intros Hempty. by rewrite (concat_all_nil lists Hempty).
Qed.


Lemma search_flights_isolates_errors_witness :
  let X := Demo.collaborators Demo.provider_two_offers None in
  exists w',
    search_flights X CONFIG (Demo.start X []) = (inr [Demo.offer1; Demo.offer2], w')
    /\ length (queries (trace w')) = 4.
Proof.
  intros X.
  destruct (search_flights_isolates_errors X CONFIG (Demo.start X []) 0
              Demo.unsupported_route)
    as (w' & origin & destination & Hrun & Hq & _ & _).
  - vm_compute. repeat constructor.
  - reflexivity.
  - exists w'. split; [exact Hrun | by rewrite Hq].
Defined.

Lemma search_flights_concatenates_witness :
  let X := Demo.collaborators Demo.provider_connecting None in
  exists w',
    search_flights X CONFIG (Demo.start X []) = (inr [Demo.connecting_offer], w').
Proof.
  intros X.
  destruct (search_flights_concatenates X CONFIG (Demo.start X [])
              [[Demo.connecting_offer]; []; []; []])
    as (w' & Hrun & _).
  - reflexivity.
  - exists w'. exact Hrun.
Defined.

(** ** The orchestrator *)

Section Boundaries.
Context {I : Interpreter} (X : Collaborators).

(** A handler that only logs turns every exception of the body into a
    normal return. *)
Lemma try_except_logging (body : M X unit) (prefix : string) (w : World X) :
  try_except body is_Exception
    (fun e => logging ERROR (prefix +:+ exn_text e)) w
  = match body w with
    | (inr _, w') => (inr tt, w')
    | (inl e, w') =>
        (inr tt, MkWorld (remote w') (trace w' ++ [Log ERROR (prefix +:+ exn_text e)]))
    end.
Proof.
  unfold try_except. destruct (body w) as [[e | []] w']; done.
Qed.

Lemma send_email_returns (env : gmap string string) (flights : list pyval)
    (w : World X) :
  exists w', send_email X env flights w = (inr tt, w').
Proof.
  unfold send_email. destruct flights as [|f flights]; [by eexists |].
  rewrite try_except_logging.
  destruct (send_email_try X env (f :: flights) w) as [[e | []] w']; by eexists.
Qed.

Lemma main_returns (env : gmap string string) (cfg : Config) (w : World X) :
  exists w', main X env cfg w = (inr tt, w').
Proof.
  unfold main. rewrite try_except_logging.
  destruct (main_try X env cfg w) as [[e | []] w']; by eexists.
Qed.

End Boundaries.

(** C7. No exception leaves [main], whatever the collaborators do: [main]
    returns and the interpreter exits with status 0.  An exception that
    reaches the boundary of [main] (from the client, from the provider past
    the handler of the loop, from validation) is logged there, and an
    exception raised while the message is composed or delivered is logged at
    the boundary of [send_email], which returns.  In particular, when the
    reply to some pair is an exception other than [ResponseError], [main]
    returns and its last record is the ERROR record of that exception. *)
Theorem main_never_raises `{Interpreter} (X : Collaborators)
    (env : gmap string string) (cfg : Config) (w : World X) :
  (exists w', main X env cfg w = (inr tt, w'))
  /\ exit_status X env cfg w = 0%Z
  /\ (forall e w1,
        main_try X env cfg w = (inl e, w1) ->
        main X env cfg w
        = (inr tt,
           MkWorld (remote w1)
             (trace w1 ++ [Log ERROR ("Unexpected error in main function: "
                                      +:+ exn_text e)])))
  /\ (forall flights w0, exists w1, send_email X env flights w0 = (inr tt, w1))
  /\ (forall flights w0 e w1,
        flights <> [] ->
        send_email_try X env flights w0 = (inl e, w1) ->
        send_email X env flights w0
        = (inr tt,
           MkWorld (remote w1)
             (trace w1 ++ [Log ERROR ("Error sending email: " +:+ exn_text e)])))
  /\ (forall w1 ps1 p ps2 e,
        let search_date := strftime_days_ahead X (DAYS_AHEAD cfg) (remote w1) in
        let reqs1 := map (fun q => build_request cfg search_date q.1 q.2) ps1 in
        let req := build_request cfg search_date p.1 p.2 in
        validate_env_vars env = inr tt ->
        FlightNotifier_init X env w = (inr tt, w1) ->
        pairs cfg = (ps1 ++ p :: ps2)%list ->
        Forall (fun reply => escapes reply = false)
               (provider_replies X reqs1 (remote w1)) ->
        (flight_offers_search_get X req (provider_state X reqs1 (remote w1))).1 = inl e ->
        is_ResponseError e = false ->
        exists w2,
          main X env cfg w = (inr tt, w2)
          /\ last (trace w2)
             = Some (Log ERROR ("Unexpected error in main function: " +:+ exn_text e))).
Proof.
  split; [apply main_returns |].
  split.
  { unfold exit_status. by destruct (main_returns X env cfg w) as [w' ->]. }
  split.
  { intros e w1 Htry. unfold main. by rewrite try_except_logging, Htry. }
  split; [intros flights w0; apply send_email_returns |].
  split.
  { intros [|f flights] w0 e w1 Hne Htry; [done |].
    unfold send_email. by rewrite try_except_logging, Htry. }
  intros w1 ps1 p ps2 e search_date reqs1 req Hval Hinit Hpairs Hok Hreply He.
  destruct (search_flights_escape X cfg w1 ps1 ps2 p e Hpairs Hok Hreply He)
    as [w2 Hsearch].
  eexists. unfold main. rewrite try_except_logging.
  unfold main_try, bind, lift. rewrite Hval, Hinit, Hsearch.
  split; [reflexivity |]. simpl. apply last_snoc.
Qed.

Lemma main_never_raises_witness :
  let X := Demo.collaborators Demo.provider_crash None in
  exists w2,
    main X Demo.env CONFIG (Demo.start X []) = (inr tt, w2)
    /\ last (trace w2)
       = Some (Log ERROR "Unexpected error in main function: socket closed").
Proof.
  intros X.
  destruct (main_never_raises X Demo.env CONFIG (Demo.start X []))
    as (_ & _ & _ & _ & _ & Hescape).
  apply (Hescape (@MkWorld X (@nil Message) [ClientInit (Some "id") (Some "secret")])
           [("LGA", "OAK")] ("LGA", "SJC") [("JFK", "OAK"); ("JFK", "SJC")]
           (Exn (StdException "RuntimeError") "socket closed"));
    try reflexivity.
  vm_compute. repeat constructor.
Defined.

(** C8. When a required variable is unset or empty, [main] stops at
    validation: it returns having written a single ERROR record that carries
    the text of the [ValueError], with no query issued, no SMTP session
    opened, no message sent and the collaborators left as they were. *)
Theorem main_stops_on_missing_configuration `{Interpreter} (X : Collaborators)
    (env : gmap string string) (cfg : Config) (w : World X) :
  (exists var, In var REQUIRED_ENV_VARS /\ unset_or_empty env var) ->
  exists text w',
    validate_env_vars env = inl (ValueError text)
    /\ main X env cfg w = (inr tt, w')
    /\ remote w' = remote w
    /\ trace w' = (trace w ++ [Log ERROR ("Unexpected error in main function: " +:+ text)])%list
    /\ queries (trace w') = queries (trace w)
    /\ notifier_calls (trace w') = notifier_calls (trace w)
    /\ sent_messages (trace w') = sent_messages (trace w)
    /\ log_records (trace w')
       = (log_records (trace w)
          ++ [(ERROR, "Unexpected error in main function: " +:+ text)])%list.
Proof.
  intros Hmissing.
  destruct (validate_env_vars_missing env Hmissing) as [text Hval].
  exists text. eexists.
  split; [exact Hval |].
  split.
  { unfold main. rewrite try_except_logging.
    unfold main_try, bind, lift. rewrite Hval. reflexivity. }
  simpl. unfold queries, notifier_calls, sent_messages, log_records.
  rewrite !omap_app. simpl. rewrite !(right_id_L [] app). done.
Qed.

Lemma main_stops_on_missing_configuration_witness :
  let X := Demo.collaborators Demo.provider_two_offers None in
  exists text w',
    main X Demo.env_no_recipient CONFIG (Demo.start X []) = (inr tt, w')
    /\ queries (trace w') = []
    /\ notifier_calls (trace w') = []
    /\ log_records (trace w') = [(ERROR, "Unexpected error in main function: " +:+ text)].
Proof.
  intros X.
  destruct (main_stops_on_missing_configuration X Demo.env_no_recipient CONFIG
              (Demo.start X []))
    as (text & w' & _ & Hrun & _ & _ & Hq & Hn & _ & Hlog).
  - exists "RECIPIENT_EMAIL". split; [vm_compute; tauto | left; reflexivity].
  - exists text, w'. repeat split; assumption.
Defined.

(** ** The notification composer *)

Lemma append_length (a b : string) :
  String.length (a +:+ b) = String.length a + String.length b.
Proof.
  induction a as [|ch a IH]; [done |].
  change (S (String.length (a +:+ b)) = S (String.length a + String.length b)).
  by rewrite IH.
Qed.

Lemma append_inj_r (a b s : string) : a +:+ s = b +:+ s -> a = b.
Proof.
  revert b. induction a as [|ch a IH]; intros [|ch' b] Heq.
  - done.
  - apply (f_equal String.length) in Heq.
    rewrite !append_length in Heq. simpl in Heq. lia.
  - apply (f_equal String.length) in Heq.
    rewrite !append_length in Heq. simpl in Heq. lia.
  - change (String ch (a +:+ s) = String ch' (b +:+ s)) in Heq.
    injection Heq as -> Heq. f_equal. by apply IH.
Qed.

(** The subject tells the count: two subjects are equal only for equal
    counts. *)
Lemma subject_count_inj (n m : nat) :
  "Flight Alert: " +:+ pretty n +:+ " Direct Flights Found!"
  = "Flight Alert: " +:+ pretty m +:+ " Direct Flights Found!" ->
  n = m.
Proof.
  intros Heq. apply (String.app_inj "Flight Alert: ") in Heq.
  apply append_inj_r in Heq. by apply pretty_nat_inj in Heq.
Qed.

Section Composer.
Context {I : Interpreter}.

Lemma append_flight_fields (body : string) (flight o d a total : pyval) :
  offer_fields flight = Some (o, d, a, total) ->
  append_flight body flight = inr (body +:+ offer_block (o, d, a, total)).
Proof.
  unfold offer_fields, append_flight, offer_block.
  destruct (getitem_key flight "originLocationCode") as [? | o']; [done |].
  destruct (getitem_key flight "destinationLocationCode") as [? | d']; [done |].
  destruct (getitem_key flight "validatingAirlineCodes") as [? | codes]; [done |].
  destruct (getitem_key flight "price") as [? | price]; [done |].
  destruct (getitem_0 codes) as [? | a']; [done |].
  destruct (getitem_key price "total") as [? | total']; [done |].
  intros [= -> -> -> ->]. f_equal. by rewrite !append_assoc.
Qed.


Lemma append_flights_fields (flights : list pyval)
    (fields : list (pyval * pyval * pyval * pyval)) (body : string) :
  map offer_fields flights = map Some fields ->
  append_flights flights body
  = inr (body +:+ foldr String.append "" (map offer_block fields)).
Proof.
  revert fields body.
  induction flights as [|flight flights IH]; intros [|[[[o d] a] total] fields] body;
    simpl; try done.
  - intros _. by rewrite append_empty_r.
  - intros [= Hf Hrest]. rewrite (append_flight_fields body flight o d a total Hf).
    rewrite (IH fields _ Hrest). by rewrite append_assoc.
Qed.



Lemma compose_message_env (env1 env2 : gmap string string) (flights : list pyval) :
  env1 !! "SENDER_EMAIL" = env2 !! "SENDER_EMAIL" ->
  env1 !! "RECIPIENT_EMAIL" = env2 !! "RECIPIENT_EMAIL" ->
  compose_message env1 flights = compose_message env2 flights.
Proof.
  intros Hs Hr. unfold compose_message, getenv. by rewrite Hs, Hr.
Qed.

End Composer.

(** C5. For a non-empty list of offers that have the four fields, the
    composed message has the subject [Flight Alert: n Direct Flights Found!]
    with [n] the number of offers, which no other count gives, and a body
    made of the heading followed by one block per offer in the order of the
    list, each block showing origin, destination, airline code and total
    price in that order; a field that is a string is shown as it is. *)
Theorem compose_message_lists_offers `{Interpreter} (env : gmap string string)
    (flights : list pyval) (fields : list (pyval * pyval * pyval * pyval)) :
  flights <> [] ->
  map offer_fields flights = map Some fields ->
  exists msg,
    compose_message env flights = inr msg
    /\ msg_Subject msg
       = "Flight Alert: " +:+ pretty (length flights) +:+ " Direct Flights Found!"
    /\ (forall n,
          msg_Subject msg = "Flight Alert: " +:+ pretty n +:+ " Direct Flights Found!" ->
          n = length flights)
    /\ msg_body msg
       = "Direct Flights Found:" +:+ LF +:+ LF
         +:+ foldr String.append "" (map offer_block fields)
    /\ length fields = length flights
    /\ forall o d a total : string,
         offer_block (PStr o, PStr d, PStr a, PStr total)
         = "From: " +:+ o +:+ " To: " +:+ d +:+ LF
           +:+ "Airline: " +:+ a +:+ LF
           +:+ "Price: $" +:+ total +:+ LF +:+ LF.
Proof.
  intros _ Hfields. unfold compose_message.
  rewrite (append_flights_fields flights fields _ Hfields).
  eexists. split; [reflexivity |]. simpl.
  split; [done |].
  split; [intros n Hn; symmetry; by apply subject_count_inj |].
  split; [by rewrite !append_assoc |].
  split.
  { apply (f_equal length) in Hfields. by rewrite !length_map in Hfields. }
  intros o d a total. unfold offer_block. by rewrite !py_format_str.
Qed.

Lemma compose_message_lists_offers_witness :
  exists msg,
    compose_message Demo.env [Demo.offer1; Demo.offer2] = inr msg
    /\ msg_Subject msg = "Flight Alert: 2 Direct Flights Found!"
    /\ msg_body msg
       = "Direct Flights Found:" +:+ LF +:+ LF
         +:+ "From: JFK To: OAK" +:+ LF +:+ "Airline: B6" +:+ LF
         +:+ "Price: $420.00" +:+ LF +:+ LF
         +:+ "From: JFK To: OAK" +:+ LF +:+ "Airline: UA" +:+ LF
         +:+ "Price: $480.00" +:+ LF +:+ LF.
Proof.
  destruct (compose_message_lists_offers Demo.env [Demo.offer1; Demo.offer2]
              [(PStr "JFK", PStr "OAK", PStr "B6", PStr "420.00");
               (PStr "JFK", PStr "OAK", PStr "UA", PStr "480.00")])
    as (msg & Hmsg & Hsubject & _ & Hbody & _).
  - discriminate.
  - reflexivity.
  - exists msg. split; [exact Hmsg |]. split; [exact Hsubject | exact Hbody].
Defined.

(** The condition on the offers cannot be dropped: a search that returns an
    offer without a price gives a non-empty result from which no message is
    composed, and the run sends nothing. *)
Lemma unpriced_result_not_composed :
  let X := Demo.collaborators Demo.provider_unpriced None in
  let run := main X Demo.env CONFIG (Demo.start X []) in
  (search_flights X CONFIG (Demo.start X [])).1 = inr [Demo.unpriced_offer]
  /\ [Demo.unpriced_offer] <> []
  /\ compose_message Demo.env [Demo.unpriced_offer] = inl (KeyError "'price'")
  /\ sent_messages (trace run.2) = []
  /\ log_records (trace run.2)
     = [(INFO, "Found 1 flights from LGA to SJC");
        (ERROR, "Error sending email: 'price'")].
Proof. vm_compute. repeat split. discriminate. Qed.

(** ** The notifier *)

Lemma notifier_calls_app (tr1 tr2 : list event) :
  notifier_calls (tr1 ++ tr2)%list = (notifier_calls tr1 ++ notifier_calls tr2)%list.
Proof. apply omap_app. Qed.

Lemma sent_messages_app (tr1 tr2 : list event) :
  sent_messages (tr1 ++ tr2)%list = (sent_messages tr1 ++ sent_messages tr2)%list.
Proof. apply omap_app. Qed.

Lemma search_only_quiet (tr : list event) :
  Forall search_only tr -> notifier_calls tr = [] /\ sent_messages tr = [].
Proof.
  induction 1 as [|ev tr Hev _ [IH1 IH2]]; [done |].
  destruct ev; simpl in *; try done.
Qed.

Ltac split_calls :=
  repeat match goal with
    | |- context [match ?t with _ => _ end] =>
        lazymatch t with
        | context [match _ with _ => _ end] => fail
        | _ => destruct t eqn:?; simpl
        end
    end.

Ltac close_trace :=
  first
    [ exists []; split; [unfold adds; simpl; by rewrite (right_id_L [] app) |]
    | eexists; split; [unfold adds; simpl; rewrite <- ?(assoc_L app); reflexivity |] ];
  simpl; repeat split; try lia; try done; try (intros ? [<- | []]; done).

Section Sessions.
Context {I : Interpreter} (X : Collaborators).

(** An SMTP session is opened at most once by [deliver], and the only
    message it hands to the server is the one it was given. *)
Lemma deliver_trace (env : gmap string string) (msg : Message) (w : World X) :
  exists added,
    adds w (deliver X env msg w).2 added
    /\ length (notifier_calls added) <= 1
    /\ length (sent_messages added) <= 1
    /\ queries added = []
    /\ forall m, In m (sent_messages added) -> m = msg.
Proof.
  unfold deliver, bind, lift, with_server, call, logging. simpl.
  split_calls; close_trace.
Qed.

Lemma send_email_trace (env : gmap string string) (flights : list pyval) (w : World X) :
  exists added,
    adds w (send_email X env flights w).2 added
    /\ length (notifier_calls added) <= 1
    /\ length (sent_messages added) <= 1
    /\ queries added = []
    /\ (flights = [] -> notifier_calls added = [] /\ sent_messages added = [])
    /\ forall m, In m (sent_messages added) -> compose_message env flights = inr m.
Proof.
  unfold send_email. destruct flights as [|f flights].
  { eexists. split; [reflexivity |]. simpl. repeat split; try lia; intros m []. }
  rewrite try_except_logging. unfold send_email_try, bind, lift.
  destruct (compose_message env (f :: flights)) as [e | msg] eqn:Hmsg.
  { eexists. split; [reflexivity |]. simpl. repeat split; try lia; try done; intros m []. }
  destruct (deliver_trace env msg w) as (added & Hadds & Hcalls & Hsent & Hq & Hm).
  unfold adds in *.
  destruct (deliver X env msg w) as [[e | []] w']; simpl in *.
  - exists (added ++ [Log ERROR ("Error sending email: " +:+ exn_text e)])%list.
    rewrite Hadds, notifier_calls_app, sent_messages_app, queries_app, Hq. simpl.
    rewrite !(right_id_L [] app), (assoc_L app).
    repeat split; try done. intros m Hin. by rewrite (Hm m Hin).
  - exists added. repeat split; try done. intros m Hin. by rewrite (Hm m Hin).
Qed.

(** The loops of [search_flights] query and log, whichever way they end. *)
Lemma search_flights_trace (cfg : Config) (w : World X) :
  exists added,
    adds w (search_flights X cfg w).2 added /\ Forall search_only added.
Proof.
  rewrite search_flights_flat.
  apply (for_each_keeps X
           (fun w' => exists added, adds w w' added /\ Forall search_only added)).
  - intros p found w1 (added & Hadds & Hquiet). rewrite search_pair_run. simpl.
    eexists. unfold adds in *. simpl. rewrite Hadds, <- (assoc_L app).
    split; [reflexivity |]. apply Forall_app. split; [done |].
    constructor; [done |].
    destruct (flight_offers_search_get X _ (remote w1)) as [[e | [[[|x l] |]]] r];
      simpl; repeat constructor.
    destruct (is_ResponseError e); by repeat constructor.
  - exists []. unfold adds. by rewrite (right_id_L [] app).
Qed.

Lemma FlightNotifier_init_trace (env : gmap string string) (w : World X) :
  exists added,
    adds w (FlightNotifier_init X env w).2 added
    /\ notifier_calls added = [] /\ sent_messages added = [].
Proof.
  unfold FlightNotifier_init, try_except, call, bind, logging, raise. simpl.
  split_calls; close_trace.
Qed.

(** A whole run opens at most one SMTP session and hands at most one
    message to the server, and only after a search that returned offers. *)
Lemma main_trace (env : gmap string string) (cfg : Config) (w : World X) :
  exists added,
    adds w (main X env cfg w).2 added
    /\ length (notifier_calls added) <= 1
    /\ length (sent_messages added) <= 1
    /\ (notifier_calls added <> [] \/ sent_messages added <> [] ->
        exists flights w2,
          search_flights X cfg (FlightNotifier_init X env w).2 = (inr flights, w2)
          /\ flights <> []).
Proof.
  unfold main. rewrite try_except_logging. unfold main_try, bind, lift.
  destruct (validate_env_vars env) as [e | []].
  { eexists. split; [reflexivity |]. simpl. repeat split; try lia. intros [? | ?]; done. }
  destruct (FlightNotifier_init_trace env w) as (a1 & H1 & Hc1 & Hs1).
  destruct (FlightNotifier_init X env w) as [[e | []] w1]; unfold adds in *; simpl in *.
  { exists (a1 ++ [Log ERROR ("Unexpected error in main function: " +:+ exn_text e)])%list.
    rewrite H1, notifier_calls_app, sent_messages_app, Hc1, Hs1, (assoc_L app). simpl.
    repeat split; try lia. intros [? | ?]; done. }
  destruct (search_flights_trace cfg w1) as (a2 & H2 & Hq2).
  apply search_only_quiet in Hq2 as [Hc2 Hs2].
  destruct (search_flights X cfg w1) as [[e | flights] w2]; unfold adds in *; simpl in *.
  { exists (a1 ++ a2 ++ [Log ERROR ("Unexpected error in main function: " +:+ exn_text e)])%list.
    rewrite H2, H1, !notifier_calls_app, !sent_messages_app, Hc1, Hs1, Hc2, Hs2.
    rewrite <- !(assoc_L app). simpl.
    repeat split; try lia. intros [? | ?]; done. }
  destruct (send_email_trace env flights w2) as (a3 & H3 & Hc3 & Hs3 & _ & Hempty & _).
  destruct (send_email_returns X env flights w2) as [w3 Hrun].
  rewrite Hrun in *. unfold adds in *. simpl in *.
  exists (a1 ++ a2 ++ a3)%list.
  rewrite H3, H2, H1, !notifier_calls_app, !sent_messages_app, Hc1, Hs1, Hc2, Hs2.
  rewrite <- !(assoc_L app). simpl.
  repeat split; try done.
  intros Hcalled. exists flights, w2. split; [done |].
  intros ->. destruct (Hempty eq_refl) as [Hn Hs]. rewrite Hn, Hs in Hcalled.
  by destruct Hcalled.
Qed.

End Sessions.

(** C4. On an empty list [send_email] writes the record that no email is
    sent and returns, without a call to the SMTP server.  On every list it
    opens at most one SMTP session and hands at most one message to the
    server, none of either when the list is empty.  A whole run of [main]
    does so at most once too, only after a search that returned a non-empty
    list, and never when every pair failed or came back without offers. *)
Theorem notifier_called_at_most_once `{Interpreter} (X : Collaborators)
    (env : gmap string string) (cfg : Config) :
  (forall w,
      send_email X env [] w
      = (inr tt,
         MkWorld (remote w) (trace w ++ [Log INFO "No flights found. No email sent."])))
  /\ (forall flights w,
        exists added,
          adds w (send_email X env flights w).2 added
          /\ length (notifier_calls added) <= 1
          /\ length (sent_messages added) <= 1
          /\ (flights = [] -> notifier_calls added = [] /\ sent_messages added = []))
  /\ (forall w,
        exists added,
          adds w (main X env cfg w).2 added
          /\ length (notifier_calls added) <= 1
          /\ length (sent_messages added) <= 1
          /\ (notifier_calls added <> [] \/ sent_messages added <> [] ->
              exists flights w2,
                search_flights X cfg (FlightNotifier_init X env w).2 = (inr flights, w2)
                /\ flights <> [])
          /\ (let w1 := (FlightNotifier_init X env w).2 in
              Forall (fun reply => escapes reply = false /\ offers_of reply = [])
                     (provider_replies X (pair_requests X cfg w1) (remote w1)) ->
              notifier_calls added = [] /\ sent_messages added = [])).
Proof.
  split; [done |]. split.
  { intros flights w.
    destruct (send_email_trace X env flights w) as (added & ? & ? & ? & _ & ? & _).
    by exists added. }
  intros w.
  destruct (main_trace X env cfg w) as (added & Hadds & Hcalls & Hsent & Honly).
  exists added. do 4 (split; [done |]).
  intros w1 Hquiet.
  assert (Hnone : ~ (notifier_calls added <> [] \/ sent_messages added <> [])).
  { intros Hcalled. destruct (Honly Hcalled) as (flights & w2 & Hrun & Hne).
    fold w1 in Hrun. rewrite search_flights_run in Hrun.
    - injection Hrun as <- _. apply Hne, concat_all_nil.
      apply Forall_fmap. eapply Forall_impl; [exact Hquiet |]. by intros reply [_ ?].
    - eapply Forall_impl; [exact Hquiet |]. by intros reply [? _]. }
  split.
  - destruct (notifier_calls added); [done |]. exfalso. apply Hnone. by left.
  - destruct (sent_messages added); [done |]. exfalso. apply Hnone. by right.
Qed.

Lemma notifier_called_at_most_once_witness :
  let X := Demo.collaborators Demo.provider_empty None in
  exists added,
    adds (Demo.start X []) (main X Demo.env CONFIG (Demo.start X [])).2 added
    /\ notifier_calls added = []
    /\ sent_messages added = [].
Proof.
  intros X.
  destruct (notifier_called_at_most_once X Demo.env CONFIG) as (_ & _ & Hmain).
  destruct (Hmain (Demo.start X [])) as (added & Hadds & _ & _ & _ & Hquiet).
  exists added. split; [exact Hadds |].
  apply Hquiet. vm_compute. repeat constructor.
Defined.

(** C9. The message depends on the offers and on the sender and recipient
    addresses only: two environments that agree on these give the same
    result of composition for the same list of offers, and any two messages
    that [send_email] hands to a server for that list, in whatever state of
    the world and with whatever collaborators, are the same message. *)
Theorem compose_message_idempotent `{Interpreter} (env1 env2 : gmap string string)
    (flights : list pyval) :
  env1 !! "SENDER_EMAIL" = env2 !! "SENDER_EMAIL" ->
  env1 !! "RECIPIENT_EMAIL" = env2 !! "RECIPIENT_EMAIL" ->
  compose_message env1 flights = compose_message env2 flights
  /\ forall (X1 X2 : Collaborators) (w1 : World X1) (w2 : World X2) (m1 m2 : Message),
       sent_messages (trace w1) = [] ->
       sent_messages (trace w2) = [] ->
       In m1 (sent_messages (trace (send_email X1 env1 flights w1).2)) ->
       In m2 (sent_messages (trace (send_email X2 env2 flights w2).2)) ->
       m1 = m2.
Proof.
  intros Hs Hr.
  pose proof (compose_message_env env1 env2 flights Hs Hr) as Hsame.
  split; [exact Hsame |].
  intros X1 X2 w1 w2 m1 m2 Hw1 Hw2 Hm1 Hm2.
  destruct (send_email_trace X1 env1 flights w1) as (a1 & Ha1 & _ & _ & _ & _ & Hc1).
  destruct (send_email_trace X2 env2 flights w2) as (a2 & Ha2 & _ & _ & _ & _ & Hc2).
  unfold adds in *.
  rewrite Ha1, sent_messages_app, Hw1 in Hm1.
  rewrite Ha2, sent_messages_app, Hw2 in Hm2.
  apply Hc1 in Hm1. apply Hc2 in Hm2. congruence.
Qed.

Lemma compose_message_idempotent_witness :
  compose_message Demo.env [Demo.offer1; Demo.offer2]
  = compose_message (<["SMTP_PORT" := "2525"]> Demo.env) [Demo.offer1; Demo.offer2].
Proof.
  apply (compose_message_idempotent Demo.env (<["SMTP_PORT" := "2525"]> Demo.env));
    reflexivity.
Defined.

(** ** Offers that break the invariants of the design document *)




(** ** The scenarios of the design document *)

(** Origins LGA and JFK, destinations OAK and SJC; two offers for JFK to
    OAK and a provider error for the three other pairs: the two offers are
    the result, in that order, and one message with a subject for 2 offers
    reaches the mailbox. *)
Example scenario_two_offers :
  let X := Demo.collaborators Demo.provider_two_offers None in
  let run := main X Demo.env CONFIG (Demo.start X []) in
  (search_flights X CONFIG (Demo.start X [])).1 = inr [Demo.offer1; Demo.offer2]
  /\ run.1 = inr tt
  /\ notifier_calls (trace run.2) = [("smtp.gmail.com", 587%Z)]
  /\ msg_Subject <$> remote run.2 = ["Flight Alert: 2 Direct Flights Found!"].
Proof. vm_compute. repeat split. Qed.

(** The four pairs come back empty: no SMTP session, and the run ends on
    the record that no email is sent. *)
Example scenario_all_empty :
  let X := Demo.collaborators Demo.provider_empty None in
  let run := main X Demo.env CONFIG (Demo.start X []) in
  run.1 = inr tt
  /\ length (queries (trace run.2)) = 4
  /\ notifier_calls (trace run.2) = []
  /\ log_records (trace run.2) = [(INFO, "No flights found. No email sent.")].
Proof. vm_compute. repeat split. Qed.

(** The recipient is absent: one ERROR record and nothing else. *)
Example scenario_no_recipient :
  let X := Demo.collaborators Demo.provider_two_offers None in
  main X Demo.env_no_recipient CONFIG (Demo.start X [])
  = (inr tt,
     @MkWorld X (@nil Message)
       [Log ERROR ("Unexpected error in main function: "
                   +:+ "Missing required environment variables: RECIPIENT_EMAIL")]).
Proof. vm_compute. reflexivity. Qed.

(** An exception that is not a [ResponseError] on the second pair ends the
    search there: two queries, the record of [main], no SMTP session. *)
Example scenario_provider_crash :
  let X := Demo.collaborators Demo.provider_crash None in
  let run := main X Demo.env CONFIG (Demo.start X []) in
  run.1 = inr tt
  /\ length (queries (trace run.2)) = 2
  /\ notifier_calls (trace run.2) = []
  /\ log_records (trace run.2)
     = [(INFO, "Found 1 flights from LGA to OAK");
        (ERROR, "Unexpected error in main function: socket closed")].
Proof. vm_compute. repeat split. Qed.

(** The mail server refuses the connection: the failure is logged by
    [send_email], and nothing reaches the mailbox. *)
Example scenario_smtp_refused :
  let X := Demo.collaborators Demo.provider_two_offers
             (Some (Exn (StdException "ConnectionRefusedError") "connection refused")) in
  let run := main X Demo.env CONFIG (Demo.start X []) in
  run.1 = inr tt
  /\ remote run.2 = []
  /\ last (log_records (trace run.2))
     = Some (ERROR, "Error sending email: connection refused").
Proof. vm_compute. repeat split. Qed.

(** An offer without a price: the message is not composed, and the record
    carries the text of the [KeyError]. *)
Example scenario_unpriced_offer :
  let X := Demo.collaborators Demo.provider_unpriced None in
  let run := main X Demo.env CONFIG (Demo.start X []) in
  run.1 = inr tt
  /\ notifier_calls (trace run.2) = []
  /\ log_records (trace run.2)
     = [(INFO, "Found 1 flights from LGA to SJC");
        (ERROR, "Error sending email: 'price'")].
Proof. vm_compute. repeat split. Qed.

(** * Further properties of the script *)

(** ** The requests of a run *)

Lemma list_prod_NoDup {A B} (xs : list A) (ys : list B) :
  NoDup xs -> NoDup ys -> NoDup (list_prod xs ys).
Proof.
  intros Hxs Hys. induction Hxs as [|x xs Hx Hxs IH]; simpl; [constructor |].
  apply NoDup_app. split; [| split; [| exact IH]].
  - by apply (NoDup_fmap_2 (pair x)).
  - intros [x' y] Hin Hin'.
    apply list_elem_of_In, in_map_iff in Hin as (y' & [= <- <-] & _).
    apply list_elem_of_In, in_prod_iff in Hin' as [Hin' _].
    by apply Hx, list_elem_of_In.
Qed.

Lemma prefix_NoDup {A} (l1 l2 : list A) : l1 `prefix_of` l2 -> NoDup l2 -> NoDup l1.
Proof. intros [k ->] Hnd. by apply NoDup_app in Hnd as [? _]. Qed.

Lemma search_flights_queries_prefix (X : Collaborators) (cfg : Config) (w : World X) :
  exists added,
    adds w (search_flights X cfg w).2 added
    /\ queries added `prefix_of` pair_requests X cfg w.
Proof.
  rewrite search_flights_flat. apply search_pairs_queries_prefix.
Qed.

(** X1. Whatever the provider does, every query of a run of
    [search_flights] is for a configured origin and a configured
    destination, for one adult, at most 10 results, nonstop only, with the
    configured airlines joined by commas and the configured price ceiling,
    and all of them carry the departure date that was computed once, before
    the loops. *)
Theorem search_flights_request_shape (X : Collaborators) (cfg : Config) (w : World X) :
  exists added,
    adds w (search_flights X cfg w).2 added
    /\ forall q,
         In q (queries added) ->
         In (originLocationCode q) (ORIGIN_AIRPORTS cfg)
         /\ In (destinationLocationCode q) (DESTINATION_AIRPORTS cfg)
         /\ departureDate q = strftime_days_ahead X (DAYS_AHEAD cfg) (remote w)
         /\ adults q = 1%Z
         /\ max_ q = 10%Z
         /\ nonStop q = true
         /\ includedAirlineCodes q = String.concat "," (AIRLINES cfg)
         /\ maxPrice q = MAX_PRICE cfg.
Proof.
  destruct (search_flights_queries_prefix X cfg w) as (added & Hadds & Hprefix).
  exists added. split; [exact Hadds |].
  intros q Hq. apply list_elem_of_In in Hq.
  apply (elem_of_prefix _ _ _ Hq) in Hprefix.
  apply list_elem_of_In, in_map_iff in Hprefix as ([o d] & <- & Hp).
  apply in_prod_iff in Hp as [Ho Hd]. simpl. by repeat split.
Qed.

(** X2. When the configured origins are pairwise distinct and so are the
    destinations, a run of [search_flights] never issues the same query
    twice, whatever the provider does. *)
Theorem search_flights_no_repeated_query (X : Collaborators) (cfg : Config)
    (w : World X) :
  NoDup (ORIGIN_AIRPORTS cfg) ->
  NoDup (DESTINATION_AIRPORTS cfg) ->
  exists added,
    adds w (search_flights X cfg w).2 added /\ NoDup (queries added).
Proof.
  intros Ho Hd.
  destruct (search_flights_queries_prefix X cfg w) as (added & Hadds & Hprefix).
  exists added. split; [exact Hadds |].
  apply (prefix_NoDup _ _ Hprefix). unfold pair_requests.
  apply NoDup_fmap_2_strong; [| by apply list_prod_NoDup].
  intros [o1 d1] [o2 d2] _ _ Heq. by injection Heq as -> ->.
Qed.

Lemma search_flights_no_repeated_query_witness :
  let X := Faults.collaborators Faults.provider_quota Faults.none in
  NoDup (queries (trace (search_flights X CONFIG (Faults.start X (0, []))).2)).
Proof.
  intros X.
  destruct (search_flights_no_repeated_query X CONFIG (Faults.start X (0, [])))
    as (added & Hadds & Hnd).
  - apply (bool_decide_unpack _). vm_compute. exact I.
  - apply (bool_decide_unpack _). vm_compute. exact I.
  - unfold adds in Hadds. rewrite Hadds. exact Hnd.
Defined.

(** ** The client *)

Lemma smtp_events_app (tr1 tr2 : list event) :
  smtp_events (tr1 ++ tr2)%list = (smtp_events tr1 ++ smtp_events tr2)%list.
Proof. apply List.filter_app. Qed.

(** X3. When the environment passes validation and the constructor of the
    Amadeus client raises, the exception is logged twice, once by
    [FlightNotifier.__init__], which raises it again, and once by [main],
    which returns; no query is issued and no SMTP session is opened. *)
Theorem main_client_failure `{Interpreter} (X : Collaborators)
    (env : gmap string string) (cfg : Config) (w : World X) (e : exn) :
  let client_id := getenv env "AMADEUS_CLIENT_ID" in
  let client_secret := getenv env "AMADEUS_CLIENT_SECRET" in
  validate_env_vars env = inr tt ->
  (amadeus_Client X client_id client_secret (remote w)).1 = inl e ->
  exists w',
    main X env cfg w = (inr tt, w')
    /\ trace w'
       = (trace w
          ++ [ClientInit client_id client_secret;
              Log ERROR ("Failed to initialize Amadeus client: " +:+ exn_text e);
              Log ERROR ("Unexpected error in main function: " +:+ exn_text e)])%list
    /\ queries (trace w') = queries (trace w)
    /\ smtp_events (trace w') = smtp_events (trace w).
Proof.
  intros client_id client_secret Hval Hclient.
  unfold main. rewrite try_except_logging.
  unfold main_try, bind, lift. rewrite Hval.
  unfold FlightNotifier_init, try_except, call, bind, logging, raise. simpl.
  fold client_id. fold client_secret. rewrite Hclient. simpl.
  eexists. split; [reflexivity |]. simpl.
  rewrite <- !(assoc_L app). simpl. split; [reflexivity |].
  rewrite queries_app, smtp_events_app. simpl.
  by rewrite !(right_id_L [] app).
Qed.

Lemma main_client_failure_witness :
  let plan := {| Faults.client_fault := Some (Exn (StdException "ValueError") "bad credentials");
                 Faults.open_fault := None; Faults.starttls_fault := None;
                 Faults.login_fault := None; Faults.send_fault := None;
                 Faults.exit_fault := None |} in
  let X := Faults.collaborators Faults.provider_quota plan in
  exists w',
    main X Demo.env CONFIG (Faults.start X (0, [])) = (inr tt, w')
    /\ log_records (trace w')
       = [(ERROR, "Failed to initialize Amadeus client: bad credentials");
          (ERROR, "Unexpected error in main function: bad credentials")]
    /\ queries (trace w') = [].
Proof.
  intros plan X.
  destruct (main_client_failure X Demo.env CONFIG (Faults.start X (0, []))
              (Exn (StdException "ValueError") "bad credentials"))
    as (w' & Hrun & Htrace & Hq & _).
  - reflexivity.
  - reflexivity.
  - exists w'. split; [exact Hrun |]. split; [by rewrite Htrace | exact Hq].
Defined.

(** ** The SMTP session *)

Ltac pick_case := first [reflexivity | left; reflexivity | right; pick_case].

Section Delivery.
Context {I : Interpreter} (X : Collaborators).

(** The ways a session can go: the port does not parse; the connection
    fails; STARTTLS, login or sending fails inside the session, which is
    then left; or everything succeeds. *)
Lemma deliver_cases (env : gmap string string) (msg : Message) (w : World X) :
  let host := getenv_default env "SMTP_SERVER" "smtp.gmail.com" in
  let user := getenv env "SENDER_EMAIL" in
  let password := getenv env "SENDER_EMAIL_PASSWORD" in
  (exists e, smtp_port env = inl e /\ deliver X env msg w = (inl e, w))
  \/ exists port added,
       smtp_port env = inr port
       /\ adds w (deliver X env msg w).2 added
       /\ (added = [SmtpOpen host port]
           \/ added = [SmtpOpen host port; SmtpStartTls; SmtpExit]
           \/ added = [SmtpOpen host port; SmtpStartTls; SmtpLogin user password;
                       SmtpExit]
           \/ added = [SmtpOpen host port; SmtpStartTls; SmtpLogin user password;
                       SmtpSend msg; SmtpExit]
           \/ added = [SmtpOpen host port; SmtpStartTls; SmtpLogin user password;
                       SmtpSend msg; Log INFO "Email sent successfully!"; SmtpExit]).
Proof.
  intros host user password.
  unfold deliver, smtp_port, bind, lift. fold host.
  destruct (match getenv env "SMTP_PORT" with
            | Some s => py_int s
            | None => inr 587%Z
            end) as [e | port].
  { left. by exists e. }
  right. exists port. unfold with_server, bind, call, logging. simpl.
  fold user. fold password.
  split_calls;
    (eexists; split; [reflexivity |];
     split; [unfold adds; simpl; rewrite <- ?(assoc_L app); reflexivity | pick_case]).
Qed.

Lemma send_email_after_deliver (env : gmap string string) (flights : list pyval)
    (msg : Message) (w : World X) :
  flights <> [] ->
  compose_message env flights = inr msg ->
  send_email X env flights w
  = match deliver X env msg w with
    | (inr _, w') => (inr tt, w')
    | (inl e, w') =>
        (inr tt,
         MkWorld (remote w')
           (trace w' ++ [Log ERROR ("Error sending email: " +:+ exn_text e)]))
    end.
Proof.
  intros Hne Hmsg. destruct flights as [|f flights]; [done |].
  unfold send_email. rewrite try_except_logging.
  unfold send_email_try, bind, lift. by rewrite Hmsg.
Qed.

(** What [send_email] adds to the trace: nothing but a record when there is
    nothing to send or the message cannot be composed, and otherwise what
    [deliver] adds, followed by an ERROR record when [deliver] raised. *)
Lemma send_email_cases (env : gmap string string) (flights : list pyval) (w : World X) :
  (exists lvl text, adds w (send_email X env flights w).2 [Log lvl text]
                    /\ text <> "Email sent successfully!")
  \/ exists msg added tail,
       flights <> []
       /\ compose_message env flights = inr msg
       /\ adds w (deliver X env msg w).2 added
       /\ adds w (send_email X env flights w).2 (added ++ tail)
       /\ (tail = [] \/ exists e, tail = [Log ERROR ("Error sending email: " +:+ exn_text e)]).
Proof.
  destruct flights as [|f flights].
  { left. eexists _, _. split; [reflexivity |]. done. }
  destruct (compose_message env (f :: flights)) as [e | msg] eqn:Hmsg.
  { left. unfold send_email. rewrite try_except_logging.
    unfold send_email_try, bind, lift. rewrite Hmsg.
    exists ERROR. eexists. split; [reflexivity |].
    intros Heq. cbv in Heq. discriminate Heq. }
  right. rewrite (send_email_after_deliver env (f :: flights) msg w) by done.
  destruct (deliver_trace X env msg w) as (added & Hadds & _).
  exists msg, added.
  destruct (deliver X env msg w) as [[e | []] w']; unfold adds in *; simpl in *.
  - eexists. repeat split; try done.
    + rewrite Hadds, <- (assoc_L app). reflexivity.
    + right. by eexists.
  - exists []. rewrite (right_id_L [] app). repeat split; try done. by left.
Qed.

End Delivery.

(** X4. When there is a message to deliver and the port parses,
    [send_email] opens one session to the configured host and port and then
    goes through STARTTLS, the login with the sender's address and password,
    the sending of the composed message and the exit of the session, cut
    after the first step that fails: a connection that is refused is
    followed by no other SMTP call; STARTTLS that fails is followed by the
    exit only; a login that fails is followed by the exit only; otherwise
    the message is handed over and the session exited.  So login is only
    attempted after STARTTLS returned, the message only sent after login
    returned, and a session that was opened is exited, whichever step
    failed. *)
Theorem send_email_session_order `{Interpreter} (X : Collaborators)
    (env : gmap string string) (flights : list pyval) (w : World X)
    (msg : Message) (port : Z) :
  let host := getenv_default env "SMTP_SERVER" "smtp.gmail.com" in
  let user := getenv env "SENDER_EMAIL" in
  let password := getenv env "SENDER_EMAIL_PASSWORD" in
  let opened := SMTP_new X host port (remote w) in
  let secured := SMTP_starttls X opened.2 in
  let logged := SMTP_login X user password secured.2 in
  flights <> [] ->
  compose_message env flights = inr msg ->
  smtp_port env = inr port ->
  exists added,
    adds w (send_email X env flights w).2 added
    /\ smtp_events added
       = SmtpOpen host port
         :: match opened.1 with
            | inl _ => []
            | inr _ =>
                SmtpStartTls
                :: match secured.1 with
                   | inl _ => [SmtpExit]
                   | inr _ =>
                       SmtpLogin user password
                       :: match logged.1 with
                          | inl _ => [SmtpExit]
                          | inr _ => [SmtpSend msg; SmtpExit]
                          end
                   end
            end
    /\ (opened.1 = inr tt -> last (smtp_events added) = Some SmtpExit)
    /\ (forall u p, In (SmtpLogin u p) added ->
                    opened.1 = inr tt /\ secured.1 = inr tt)
    /\ (forall m, In (SmtpSend m) added ->
                  m = msg /\ opened.1 = inr tt /\ secured.1 = inr tt
                  /\ logged.1 = inr tt).
Proof.
  intros host user password opened secured logged Hne Hmsg Hport.
  rewrite (send_email_after_deliver X env flights msg w Hne Hmsg).
  unfold deliver, bind, lift. unfold smtp_port in Hport. rewrite Hport.
  unfold with_server, bind, call, logging. simpl.
  subst opened secured logged host user password.
  split_calls;
    repeat match goal with u : unit |- _ => destruct u end;
    (eexists; split;
     [unfold adds; simpl; rewrite <- ?(assoc_L app); reflexivity |]);
    simpl; (split; [reflexivity |]); (split; [done |]);
    (split; [intros u p Hin | intros m Hin]);
    repeat (destruct Hin as [Hin | Hin]; [by simplify_eq |]);
    destruct Hin.
Qed.

Lemma send_email_session_order_witness :
  let refused := Exn (StdException "SMTPNotSupportedError") "STARTTLS not supported" in
  let plan := {| Faults.client_fault := None; Faults.open_fault := None;
                 Faults.starttls_fault := Some refused; Faults.login_fault := None;
                 Faults.send_fault := None; Faults.exit_fault := None |} in
  let X := Faults.collaborators Faults.provider_quota plan in
  let w' := (send_email X Demo.env [Demo.offer1] (Faults.start X (0, []))).2 in
  smtp_events (trace w') = [SmtpOpen "smtp.gmail.com" 587%Z; SmtpStartTls; SmtpExit]
  /\ (remote w').2 = [].
Proof.
  intros refused plan X w'.
  destruct (send_email_session_order X Demo.env [Demo.offer1] (Faults.start X (0, []))
              {| msg_From := Some "alerts@example.org";
                 msg_To := Some "me@example.org";
                 msg_Subject := "Flight Alert: 1 Direct Flights Found!";
                 msg_body := "Direct Flights Found:" +:+ LF +:+ LF
                             +:+ "From: JFK To: OAK" +:+ LF +:+ "Airline: B6" +:+ LF
                             +:+ "Price: $420.00" +:+ LF +:+ LF |}
              587%Z)
    as (added & Hadds & Hshape & _); try reflexivity; try discriminate.
  unfold adds in Hadds. fold w' in Hadds. rewrite Hadds.
  split; [exact Hshape | reflexivity].
Defined.

(** X5. [send_email] writes the record that the email was sent only right
    after it handed the composed message to the server and before it leaves
    the session: the record never appears in a run in which no message was
    sent. *)
Theorem send_email_success_record `{Interpreter} (X : Collaborators)
    (env : gmap string string) (flights : list pyval) (w : World X) :
  exists added,
    adds w (send_email X env flights w).2 added
    /\ (In (Log INFO "Email sent successfully!") added ->
        exists msg before after,
          compose_message env flights = inr msg
          /\ added = (before ++ SmtpSend msg :: Log INFO "Email sent successfully!"
                             :: SmtpExit :: after)%list
          /\ sent_messages added = [msg]).
Proof.
  destruct (send_email_cases X env flights w)
    as [(lvl & text & Hadds & Hother)
       | (msg & added & tail & Hne & Hmsg & Hd & Hadds & Htail)].
  { exists [Log lvl text]. split; [exact Hadds |]. intros [[= _ ->] | []]. done. }
  exists (added ++ tail)%list. split; [exact Hadds |].
  intros Hin. exists msg.
  destruct (deliver_cases X env msg w)
    as [(e & Hport & Hrun) | (port & added' & Hport & Hd' & Hcases)].
  { rewrite Hrun in Hd. unfold adds in Hd. simpl in Hd.
    rewrite <- (right_id_L [] app (trace w)) in Hd at 1.
    apply (inj (app (trace w))) in Hd. subst added.
    destruct Htail as [-> | [e' ->]]; simpl in Hin; [done |].
    by destruct Hin as [[=] | []]. }
  unfold adds in Hd, Hd'. rewrite Hd in Hd'. apply (inj (app (trace w))) in Hd'.
  subst added'.
  assert (Hsilent : ~ In (Log INFO "Email sent successfully!") tail).
  { destruct Htail as [-> | [e' ->]]; simpl; [tauto |]. by intros [[=] | []]. }
  apply in_app_or in Hin as [Hin | Hin]; [| done].
  destruct Hcases as [-> | [-> | [-> | [-> | ->]]]]; simpl in Hin;
    try (repeat (destruct Hin as [[=] | Hin]); by destruct Hin).
  eexists [_; _; _], tail. split; [exact Hmsg |]. split; [reflexivity |].
  rewrite sent_messages_app. simpl.
  destruct Htail as [-> | [e' ->]]; done.
Qed.

(** X6. When the session was opened and leaving it always fails, the
    exception of the exit is the one [send_email] logs, as its last record,
    whatever happened inside the session: it hides the exception of a step
    that failed, and it turns a message that was sent into a logged
    error. *)
Theorem send_email_exit_failure_logged `{Interpreter} (X : Collaborators)
    (env : gmap string string) (flights : list pyval) (w : World X)
    (msg : Message) (port : Z) (e' : exn) :
  let host := getenv_default env "SMTP_SERVER" "smtp.gmail.com" in
  flights <> [] ->
  compose_message env flights = inr msg ->
  smtp_port env = inr port ->
  (SMTP_new X host port (remote w)).1 = inr tt ->
  (forall r, (SMTP_exit X r).1 = inl e') ->
  exists w',
    send_email X env flights w = (inr tt, w')
    /\ last (trace w') = Some (Log ERROR ("Error sending email: " +:+ exn_text e')).
Proof.
  intros host Hne Hmsg Hport Hopen Hexit.
  rewrite (send_email_after_deliver X env flights msg w Hne Hmsg).
  unfold deliver, bind, lift. unfold smtp_port in Hport. rewrite Hport.
  unfold with_server, bind, call, logging. simpl. fold host. rewrite Hopen.
  simpl.
  split_calls;
    try (match goal with
         | Hx : (SMTP_exit X ?r).1 = inr _ |- _ => pose proof (Hexit r); congruence
         end);
    match goal with
    | Hx : (SMTP_exit X ?r).1 = inl ?e |- _ =>
        assert (e = e') as -> by (pose proof (Hexit r); congruence)
    end;
    (eexists; split; [reflexivity | simpl; apply last_snoc]).
Qed.

Lemma send_email_exit_failure_logged_witness :
  let quit := Exn (StdException "SMTPResponseException") "(421, b'closing')" in
  let plan := {| Faults.client_fault := None; Faults.open_fault := None;
                 Faults.starttls_fault := None; Faults.login_fault := None;
                 Faults.send_fault := None; Faults.exit_fault := Some quit |} in
  let X := Faults.collaborators Faults.provider_quota plan in
  exists w',
    send_email X Demo.env [Demo.offer1] (Faults.start X (0, [])) = (inr tt, w')
    /\ last (trace w') = Some (Log ERROR "Error sending email: (421, b'closing')")
    /\ length (remote w').2 = 1.
Proof.
  intros quit plan X.
  destruct (send_email_exit_failure_logged X Demo.env [Demo.offer1]
              (Faults.start X (0, []))
              {| msg_From := Some "alerts@example.org";
                 msg_To := Some "me@example.org";
                 msg_Subject := "Flight Alert: 1 Direct Flights Found!";
                 msg_body := "Direct Flights Found:" +:+ LF +:+ LF
                             +:+ "From: JFK To: OAK" +:+ LF +:+ "Airline: B6" +:+ LF
                             +:+ "Price: $420.00" +:+ LF +:+ LF |}
              587%Z quit)
    as (w' & Hrun & Hlast); try reflexivity; try discriminate.
  exists w'. split; [exact Hrun |]. split; [exact Hlast |].
  vm_compute in Hrun. injection Hrun as <-. reflexivity.
Defined.

(** X7. A session [send_email] opens is to the host in [SMTP_SERVER], or
    [smtp.gmail.com] when it is unset, and to the port that [int] reads from
    [SMTP_PORT], or 587 when it is unset; an [SMTP_PORT] that is set but is
    not an integer, the empty string included, is not replaced by the
    default: no session is opened and nothing is sent. *)
Theorem send_email_connection_target `{Interpreter} (X : Collaborators)
    (env : gmap string string) (flights : list pyval) (w : World X) :
  exists added,
    adds w (send_email X env flights w).2 added
    /\ (forall host port,
          In (host, port) (notifier_calls added) ->
          host = match env !! "SMTP_SERVER" with
                 | Some s => s
                 | None => "smtp.gmail.com"
                 end
          /\ match env !! "SMTP_PORT" with
             | Some s => py_int s = inr port
             | None => port = 587%Z
             end)
    /\ (forall s e,
          env !! "SMTP_PORT" = Some s -> py_int s = inl e ->
          smtp_events added = [] /\ sent_messages added = []).
Proof.
  destruct (send_email_cases X env flights w)
    as [(lvl & text & Hadds & _)
       | (msg & added & tail & Hne & Hmsg & Hd & Hadds & Htail)].
  { exists [Log lvl text]. split; [exact Hadds |]. split; [intros ? ? [] | done]. }
  exists (added ++ tail)%list. split; [exact Hadds |].
  assert (Ht : notifier_calls tail = [] /\ smtp_events tail = [] /\ sent_messages tail = [])
    by (by destruct Htail as [-> | [e ->]]).
  destruct Ht as (Ht1 & Ht2 & Ht3).
  rewrite notifier_calls_app, smtp_events_app, sent_messages_app, Ht1, Ht2, Ht3.
  rewrite !(right_id_L [] app).
  destruct (deliver_cases X env msg w)
    as [(e & Hport & Hrun) | (port & added' & Hport & Hd' & Hcases)].
  { rewrite Hrun in Hd. unfold adds in Hd. simpl in Hd.
    rewrite <- (right_id_L [] app (trace w)) in Hd at 1.
    apply (inj (app (trace w))) in Hd. subst added. simpl.
    split; [intros ? ? [] | done]. }
  unfold adds in Hd, Hd'. rewrite Hd in Hd'. apply (inj (app (trace w))) in Hd'.
  subst added'. unfold smtp_port, getenv in Hport. split.
  - intros host p Hin.
    assert (Hhp : (host, p) = (getenv_default env "SMTP_SERVER" "smtp.gmail.com", port)).
    { destruct Hcases as [-> | [-> | [-> | [-> | ->]]]]; simpl in Hin;
        by destruct Hin as [<- | []]. }
    injection Hhp as -> ->. split; [done |].
    destruct (env !! "SMTP_PORT"); [done | by injection Hport].
  - intros s e Hs He. rewrite Hs, He in Hport. discriminate.
Qed.

Lemma send_email_connection_target_witness :
  let X := Faults.collaborators Faults.provider_quota Faults.none in
  let env := <["SMTP_PORT" := ""]> Demo.env in
  let w' := (send_email X env [Demo.offer1] (Faults.start X (0, []))).2 in
  smtp_events (trace w') = [] /\ (remote w').2 = [].
Proof.
  intros X env w'.
  destruct (send_email_connection_target X env [Demo.offer1] (Faults.start X (0, [])))
    as (added & Hadds & _ & Hbad).
  destruct (Hbad "" (ValueError "invalid literal for int() with base 10: ''"))
    as [Hquiet _]; [reflexivity | reflexivity |].
  unfold adds in Hadds. fold w' in Hadds. rewrite Hadds.
  split; [exact Hquiet | reflexivity].
Defined.

(** ** A whole run *)

Lemma validate_env_vars_filled (env : gmap string string) (var : string) :
  validate_env_vars env = inr tt -> In var REQUIRED_ENV_VARS -> filled (env !! var).
Proof.
  intros Hval Hin. unfold filled.
  destruct (env !! var) as [s|] eqn:E.
  - exists s. split; [done |]. intros ->.
    destruct (validate_env_vars_missing env) as [text Htext]; [| congruence].
    exists var. split; [done | by right].
  - destruct (validate_env_vars_missing env) as [text Htext]; [| congruence].
    exists var. split; [done | by left].
Qed.

Lemma search_only_silent (tr : list event) :
  Forall search_only tr ->
  smtp_events tr = [] /\ client_inits tr = [] /\ logins tr = [].
Proof.
  induction 1 as [|ev tr Hev _ (IH1 & IH2 & IH3)]; [done |].
  destruct ev; simpl in *; try done.
Qed.

Section Runs.
Context {I : Interpreter} (X : Collaborators).

(** A run of [main] in three stretches: what the construction of the client
    adds to the trace, what the search adds, and what comes last, which is
    the ERROR record of [main] or what [send_email] adds. *)
Lemma main_phases (env : gmap string string) (cfg : Config) (w : World X) :
  let client_id := getenv env "AMADEUS_CLIENT_ID" in
  let client_secret := getenv env "AMADEUS_CLIENT_SECRET" in
  let w1 := (FlightNotifier_init X env w).2 in
  exists a1 a2 a3,
    adds w (main X env cfg w).2 (a1 ++ a2 ++ a3)
    /\ (a1 = []
        \/ validate_env_vars env = inr tt
           /\ (a1 = [ClientInit client_id client_secret]
               \/ exists e,
                    a1 = [ClientInit client_id client_secret;
                          Log ERROR ("Failed to initialize Amadeus client: "
                                     +:+ exn_text e)]))
    /\ Forall search_only a2
    /\ queries a2 `prefix_of` pair_requests X cfg w1
    /\ ((exists e, a3 = [Log ERROR ("Unexpected error in main function: "
                                    +:+ exn_text e)])
        \/ exists flights w2,
             validate_env_vars env = inr tt
             /\ search_flights X cfg w1 = (inr flights, w2)
             /\ adds w2 (send_email X env flights w2).2 a3).
Proof.
  intros client_id client_secret w1.
  unfold main. rewrite try_except_logging. unfold main_try, bind, lift.
  destruct (validate_env_vars env) as [e | []].
  { exists [], [], [Log ERROR ("Unexpected error in main function: " +:+ exn_text e)].
    split; [reflexivity |]. split; [by left |]. split; [constructor |].
    split; [apply prefix_nil |]. left. by exists e. }
  assert (Hinit : exists a1,
             adds w w1 a1
             /\ (a1 = [ClientInit client_id client_secret]
                 \/ exists e,
                      a1 = [ClientInit client_id client_secret;
                            Log ERROR ("Failed to initialize Amadeus client: "
                                       +:+ exn_text e)])).
  { unfold w1, FlightNotifier_init, try_except, call, bind, logging, raise. simpl.
    fold client_id. fold client_secret.
    split_calls.
    - eexists. split; [unfold adds; simpl; rewrite <- (assoc_L app); reflexivity |].
      right. by eexists.
    - eexists. split; [reflexivity | by left]. }
  destruct Hinit as (a1 & Ha1 & Hshape). unfold adds in Ha1.
  unfold w1 in *. clear w1.
  destruct (FlightNotifier_init X env w) as [[e | []] w1]; simpl in *.
  { exists a1, [], [Log ERROR ("Unexpected error in main function: " +:+ exn_text e)].
    split; [unfold adds; simpl; by rewrite Ha1, <- (assoc_L app) |].
    split; [by right |]. split; [constructor |].
    split; [apply prefix_nil |]. left. by exists e. }
  destruct (search_flights_queries_prefix X cfg w1) as (a2 & Ha2 & Hprefix).
  destruct (search_flights_trace X cfg w1) as (a2' & Ha2' & Hquiet).
  assert (a2' = a2) as ->.
  { unfold adds in *. rewrite Ha2 in Ha2'. by apply (inj (app (trace w1))) in Ha2'. }
  unfold adds in Ha2.
  destruct (search_flights X cfg w1) as [[e | flights] w2] eqn:Hsearch; simpl in *.
  { exists a1, a2, [Log ERROR ("Unexpected error in main function: " +:+ exn_text e)].
    split; [unfold adds; simpl; by rewrite Ha2, Ha1, <- !(assoc_L app) |].
    split; [by right |]. do 2 (split; [done |]). left. by exists e. }
  destruct (send_email_trace X env flights w2) as (a3 & Ha3 & _).
  destruct (send_email_returns X env flights w2) as [w3 Hrun].
  rewrite Hrun in *. unfold adds in Ha3. simpl in Ha3.
  exists a1, a2, a3.
  split; [unfold adds; simpl; by rewrite Ha3, Ha2, Ha1, <- !(assoc_L app) |].
  split; [by right |]. do 2 (split; [done |]).
  right. exists flights, w2. do 2 (split; [done |]).
  unfold adds. by rewrite Hrun.
Qed.

End Runs.

Lemma client_inits_app (tr1 tr2 : list event) :
  client_inits (tr1 ++ tr2)%list = (client_inits tr1 ++ client_inits tr2)%list.
Proof. apply omap_app. Qed.

Lemma logins_app (tr1 tr2 : list event) :
  logins (tr1 ++ tr2)%list = (logins tr1 ++ logins tr2)%list.
Proof. apply omap_app. Qed.

(** What [send_email] can leave in the trace besides records: no query, no
    construction of the client, a login with the sender's address and
    password only, and no message but the composition of its argument. *)
Lemma send_email_events `{Interpreter} (X : Collaborators)
    (env : gmap string string) (flights : list pyval) (w : World X)
    (a3 : list event) :
  adds w (send_email X env flights w).2 a3 ->
  queries a3 = []
  /\ client_inits a3 = []
  /\ (forall l, In l (logins a3) ->
                l = (getenv env "SENDER_EMAIL", getenv env "SENDER_EMAIL_PASSWORD"))
  /\ (forall m, In m (sent_messages a3) ->
                flights <> [] /\ compose_message env flights = inr m).
Proof.
  intros Ha3.
  destruct (send_email_cases X env flights w)
    as [(lvl & text & Hadds & _)
       | (msg & added & tail & Hne & Hmsg & Hd & Hadds & Htail)];
    unfold adds in *; rewrite Ha3 in Hadds; apply (inj (app (trace w))) in Hadds;
    subst a3.
  { simpl. repeat split; try done; intros ? []. }
  assert (Ht : queries tail = [] /\ client_inits tail = [] /\ logins tail = []
               /\ sent_messages tail = [])
    by (by destruct Htail as [-> | [e ->]]).
  destruct Ht as (Ht1 & Ht2 & Ht3 & Ht4).
  rewrite queries_app, client_inits_app, logins_app, sent_messages_app.
  rewrite Ht1, Ht2, Ht3, Ht4, !(right_id_L [] app).
  destruct (deliver_cases X env msg w)
    as [(e & Hport & Hrun) | (port & added' & Hport & Hd' & Hcases)].
  { rewrite Hrun in Hd. simpl in Hd.
    rewrite <- (right_id_L [] app (trace w)) in Hd at 1.
    apply (inj (app (trace w))) in Hd. subst added. simpl.
    repeat split; try done; intros ? []. }
  unfold adds in Hd'. rewrite Hd in Hd'. apply (inj (app (trace w))) in Hd'.
  subst added'.
  destruct Hcases as [-> | [-> | [-> | [-> | ->]]]]; simpl;
    (split; [done |]); (split; [done |]); (split; [intros l Hin | intros m Hin]);
    repeat (destruct Hin as [<- | Hin]; [first [done | by split] |]);
    destruct Hin.
Qed.

(** X8. A message that a run of [main] hands to the mail server is the
    composition of the list that [search_flights] returned in that run, a
    non-empty list, in an environment that passed validation; its subject
    carries the length of that list. *)
Theorem main_sends_what_search_found `{Interpreter} (X : Collaborators)
    (env : gmap string string) (cfg : Config) (w : World X) :
  exists added,
    adds w (main X env cfg w).2 added
    /\ forall m,
         In m (sent_messages added) ->
         validate_env_vars env = inr tt
         /\ exists flights w2,
              search_flights X cfg (FlightNotifier_init X env w).2 = (inr flights, w2)
              /\ flights <> []
              /\ compose_message env flights = inr m
              /\ msg_Subject m
                 = "Flight Alert: " +:+ pretty (length flights)
                   +:+ " Direct Flights Found!".
Proof.
  destruct (main_phases X env cfg w)
    as (a1 & a2 & a3 & Hadds & Ha1 & Ha2 & _ & Ha3).
  exists (a1 ++ a2 ++ a3)%list. split; [exact Hadds |].
  intros m Hm. rewrite !sent_messages_app in Hm.
  assert (H1 : sent_messages a1 = [])
    by (by destruct Ha1 as [-> | [_ [-> | [e ->]]]]).
  destruct (search_only_quiet a2 Ha2) as [_ H2].
  rewrite H1, H2 in Hm. simpl in Hm.
  destruct Ha3 as [[e ->] | (flights & w2 & Hval & Hsearch & Hsend)]; [destruct Hm |].
  split; [exact Hval |]. exists flights, w2. split; [exact Hsearch |].
  destruct (send_email_events X env flights w2 a3 Hsend) as (_ & _ & _ & Hsent).
  destruct (Hsent m Hm) as [Hne Hmsg]. do 2 (split; [done |]).
  unfold compose_message in Hmsg.
  destruct (append_flights flights _) as [? | body]; [done |].
  by injection Hmsg as <-.
Qed.

(** X9. In a run of [main] the client is built at most once and before any
    query, every query comes before the SMTP session is opened, and there
    are at most N times M queries, whatever the collaborators do. *)
Theorem main_run_order `{Interpreter} (X : Collaborators)
    (env : gmap string string) (cfg : Config) (w : World X) :
  exists a1 a2 a3,
    adds w (main X env cfg w).2 (a1 ++ a2 ++ a3)
    /\ length (client_inits a1) <= 1
    /\ queries a1 = [] /\ smtp_events a1 = []
    /\ client_inits a2 = [] /\ smtp_events a2 = []
    /\ length (queries a2)
       <= length (ORIGIN_AIRPORTS cfg) * length (DESTINATION_AIRPORTS cfg)
    /\ client_inits a3 = [] /\ queries a3 = [].
Proof.
  destruct (main_phases X env cfg w)
    as (a1 & a2 & a3 & Hadds & Ha1 & Ha2 & Hprefix & Ha3).
  exists a1, a2, a3. split; [exact Hadds |].
  assert (H1 : length (client_inits a1) <= 1 /\ queries a1 = [] /\ smtp_events a1 = []).
  { destruct Ha1 as [-> | [_ [-> | [e ->]]]]; simpl; repeat split; lia. }
  destruct H1 as (? & ? & ?).
  destruct (search_only_silent a2 Ha2) as (? & ? & _).
  apply prefix_length in Hprefix. rewrite pair_requests_length in Hprefix.
  do 6 (split; [done |]).
  destruct Ha3 as [[e ->] | (flights & w2 & _ & _ & Hsend)]; [done |].
  by destruct (send_email_events X env flights w2 a3 Hsend) as (? & ? & _).
Qed.

(** X10. Validation protects what follows: in a run of [main] the client is
    only ever built with a client id and a secret that are set and not
    empty, the server is only ever logged in to with a sender address and a
    password that are set and not empty, and a message handed to the server
    has a sender and a recipient that are set and not empty. *)
Theorem main_uses_validated_values `{Interpreter} (X : Collaborators)
    (env : gmap string string) (cfg : Config) (w : World X) :
  exists added,
    adds w (main X env cfg w).2 added
    /\ (forall c, In c (client_inits added) -> filled c.1 /\ filled c.2)
    /\ (forall l, In l (logins added) -> filled l.1 /\ filled l.2)
    /\ (forall m, In m (sent_messages added) ->
                  filled (msg_From m) /\ filled (msg_To m)).
Proof.
  destruct (main_phases X env cfg w)
    as (a1 & a2 & a3 & Hadds & Ha1 & Ha2 & _ & Ha3).
  exists (a1 ++ a2 ++ a3)%list. split; [exact Hadds |].
  rewrite !client_inits_app, !logins_app, !sent_messages_app.
  destruct (search_only_silent a2 Ha2) as (_ & -> & ->).
  destruct (search_only_quiet a2 Ha2) as [_ ->]. simpl.
  assert (Hquiet1 : logins a1 = [] /\ sent_messages a1 = [])
    by (by destruct Ha1 as [-> | [_ [-> | [e ->]]]]).
  destruct Hquiet1 as [-> ->]. simpl.
  assert (Hinits3 : client_inits a3 = []).
  { destruct Ha3 as [[e ->] | (flights & w2 & _ & _ & Hsend)]; [done |].
    by destruct (send_email_events X env flights w2 a3 Hsend) as (_ & ? & _). }
  rewrite Hinits3, (right_id_L [] app).
  split; [| split].
  - intros c Hc.
    destruct Ha1 as [-> | [Hval Hshape]]; [destruct Hc |].
    assert (c = (getenv env "AMADEUS_CLIENT_ID", getenv env "AMADEUS_CLIENT_SECRET"))
      as -> by (destruct Hshape as [-> | [e ->]]; by destruct Hc as [<- | []]).
    split; apply (validate_env_vars_filled env _ Hval); vm_compute; tauto.
  - intros l Hl.
    destruct Ha3 as [[e ->] | (flights & w2 & Hval & _ & Hsend)]; [destruct Hl |].
    destruct (send_email_events X env flights w2 a3 Hsend) as (_ & _ & Hlogin & _).
    rewrite (Hlogin l Hl). simpl.
    split; apply (validate_env_vars_filled env _ Hval); vm_compute; tauto.
  - intros m Hm.
    destruct Ha3 as [[e ->] | (flights & w2 & Hval & _ & Hsend)]; [destruct Hm |].
    destruct (send_email_events X env flights w2 a3 Hsend) as (_ & _ & _ & Hsent).
    destruct (Hsent m Hm) as [_ Hmsg]. unfold compose_message in Hmsg.
    destruct (append_flights flights _) as [? | body]; [done |].
    injection Hmsg as <-. simpl.
    split; apply (validate_env_vars_filled env _ Hval); vm_compute; tauto.
Qed.

Lemma FlightNotifier_init_events `{Interpreter} (X : Collaborators)
    (env : gmap string string) (w : World X) :
  exists a1,
    adds w (FlightNotifier_init X env w).2 a1
    /\ queries a1 = [] /\ smtp_events a1 = []
    /\ notifier_calls a1 = [] /\ sent_messages a1 = [].
Proof.
  unfold FlightNotifier_init, try_except, call, bind, logging, raise. simpl.
  split_calls.
  - eexists. split; [unfold adds; simpl; rewrite <- (assoc_L app); reflexivity | done].
  - eexists. split; [reflexivity | done].
Qed.

(** The world an escaping reply leaves behind: the pairs before it were
    searched, its own query was issued, and nothing else happened. *)
Lemma search_flights_escape_run (X : Collaborators) (cfg : Config) (w : World X)
    (ps1 ps2 : list (string * string)) (p : string * string) (e : exn) :
  let search_date := strftime_days_ahead X (DAYS_AHEAD cfg) (remote w) in
  let reqs1 := map (fun q => build_request cfg search_date q.1 q.2) ps1 in
  let req := build_request cfg search_date p.1 p.2 in
  pairs cfg = (ps1 ++ p :: ps2)%list ->
  Forall (fun reply => escapes reply = false) (provider_replies X reqs1 (remote w)) ->
  (flight_offers_search_get X req (provider_state X reqs1 (remote w))).1 = inl e ->
  is_ResponseError e = false ->
  exists w',
    search_flights X cfg w = (inl e, w')
    /\ trace w'
       = (trace w
          ++ search_events cfg search_date ps1 (provider_replies X reqs1 (remote w))
          ++ [Query req])%list.
Proof.
  intros search_date reqs1 req Hpairs Hok Hreply He.
  rewrite search_flights_flat, Hpairs, for_each_app. unfold bind.
  rewrite search_pairs_run by exact Hok. simpl. unfold bind.
  rewrite search_pair_run. simpl. fold search_date. fold reqs1. fold req.
  rewrite Hreply. simpl. rewrite He. eexists. split; [reflexivity |].
  simpl. by rewrite <- (assoc_L app).
Qed.

(** X11. An exception of the provider that is not a [ResponseError] is not
    isolated: the pairs after the one it came from are never queried, and
    the offers the earlier pairs returned are dropped, since [main] logs
    the exception and returns without opening an SMTP session or sending
    anything. *)
Theorem main_escape_discards_offers `{Interpreter} (X : Collaborators)
    (env : gmap string string) (cfg : Config) (w w1 : World X)
    (ps1 ps2 : list (string * string)) (p : string * string) (e : exn) :
  let search_date := strftime_days_ahead X (DAYS_AHEAD cfg) (remote w1) in
  let reqs1 := map (fun q => build_request cfg search_date q.1 q.2) ps1 in
  let req := build_request cfg search_date p.1 p.2 in
  validate_env_vars env = inr tt ->
  FlightNotifier_init X env w = (inr tt, w1) ->
  pairs cfg = (ps1 ++ p :: ps2)%list ->
  Forall (fun reply => escapes reply = false) (provider_replies X reqs1 (remote w1)) ->
  (flight_offers_search_get X req (provider_state X reqs1 (remote w1))).1 = inl e ->
  is_ResponseError e = false ->
  exists w',
    main X env cfg w = (inr tt, w')
    /\ queries (trace w') = (queries (trace w) ++ reqs1 ++ [req])%list
    /\ smtp_events (trace w') = smtp_events (trace w)
    /\ sent_messages (trace w') = sent_messages (trace w).
Proof.
  intros search_date reqs1 req Hval Hinit Hpairs Hok Hreply He.
  destruct (search_flights_escape_run X cfg w1 ps1 ps2 p e Hpairs Hok Hreply He)
    as (w2 & Hsearch & Htrace).
  destruct (FlightNotifier_init_events X env w) as (a1 & Ha1 & Hq1 & Hs1 & _ & Hm1).
  rewrite Hinit in Ha1. unfold adds in Ha1. simpl in Ha1.
  pose proof (search_events_search_only cfg search_date ps1
                (provider_replies X reqs1 (remote w1))) as Hquiet.
  destruct (search_only_silent _ Hquiet) as (Hs2 & _ & _).
  destruct (search_only_quiet _ Hquiet) as [_ Hm2].
  eexists. unfold main. rewrite try_except_logging.
  unfold main_try, bind, lift. rewrite Hval, Hinit, Hsearch.
  split; [reflexivity |]. simpl. rewrite Htrace, Ha1.
  fold search_date. fold reqs1.
  rewrite !queries_app, !smtp_events_app, !sent_messages_app.
  rewrite Hq1, Hs1, Hm1, Hs2, Hm2. simpl. rewrite !(right_id_L [] app).
  split; [| done]. do 2 f_equal.
  apply queries_search_events.
  unfold reqs1. by rewrite provider_replies_length, length_map.
Qed.

Lemma main_escape_discards_offers_witness :
  let X := Faults.collaborators Faults.provider_breaks Faults.none in
  exists w',
    main X Demo.env CONFIG (Faults.start X (0, [])) = (inr tt, w')
    /\ length (queries (trace w')) = 2
    /\ smtp_events (trace w') = []
    /\ (remote w').2 = [].
Proof.
  intros X.
  destruct (main_escape_discards_offers X Demo.env CONFIG (Faults.start X (0, []))
              (@MkWorld X (0, []) [ClientInit (Some "id") (Some "secret")])
              [("LGA", "OAK")] [("JFK", "OAK"); ("JFK", "SJC")] ("LGA", "SJC")
              (Exn (StdException "TimeoutError") "timed out"))
    as (w' & Hrun & Hq & Hs & _); try reflexivity.
  - vm_compute. repeat constructor.
  - exists w'. split; [exact Hrun |]. split; [by rewrite Hq |]. split; [exact Hs |].
    vm_compute in Hrun. injection Hrun as <-. reflexivity.
Defined.

(** X12. When nothing fails, the notification goes out: if the environment
    passes validation, the client is built, the provider answers every pair
    with a response or a [ResponseError], some offer came back, the message
    composes, the port parses and the server accepts the connection,
    STARTTLS, the login and the message, then [main] opens exactly one
    session to the configured host and port, hands the server exactly the
    composition of the offers found, and writes the record of success,
    whether leaving the session then fails or not. *)
Theorem main_notifies_when_all_succeed `{Interpreter} (X : Collaborators)
    (env : gmap string string) (cfg : Config) (w w1 : World X)
    (msg : Message) (port : Z) :
  let host := getenv_default env "SMTP_SERVER" "smtp.gmail.com" in
  let user := getenv env "SENDER_EMAIL" in
  let password := getenv env "SENDER_EMAIL_PASSWORD" in
  let replies := provider_replies X (pair_requests X cfg w1) (remote w1) in
  validate_env_vars env = inr tt ->
  FlightNotifier_init X env w = (inr tt, w1) ->
  Forall (fun reply => escapes reply = false) replies ->
  concat (map offers_of replies) <> [] ->
  compose_message env (concat (map offers_of replies)) = inr msg ->
  smtp_port env = inr port ->
  (forall r, (SMTP_new X host port r).1 = inr tt) ->
  (forall r, (SMTP_starttls X r).1 = inr tt) ->
  (forall r, (SMTP_login X user password r).1 = inr tt) ->
  (forall r, (SMTP_send_message X msg r).1 = inr tt) ->
  exists w',
    main X env cfg w = (inr tt, w')
    /\ notifier_calls (trace w') = (notifier_calls (trace w) ++ [(host, port)])%list
    /\ sent_messages (trace w') = (sent_messages (trace w) ++ [msg])%list
    /\ In (Log INFO "Email sent successfully!") (trace w').
Proof.
  intros host user password replies Hval Hinit Hok Hne Hmsg Hport Hopen Htls Hlogin Hsend.
  destruct (FlightNotifier_init_events X env w) as (a1 & Ha1 & _ & _ & Hc1 & Hm1).
  rewrite Hinit in Ha1. unfold adds in Ha1. simpl in Ha1.
  pose proof (search_events_search_only cfg
                (strftime_days_ahead X (DAYS_AHEAD cfg) (remote w1)) (pairs cfg) replies)
    as Hquiet.
  destruct (search_only_quiet _ Hquiet) as [Hc2 Hm2].
  unfold main. rewrite try_except_logging.
  unfold main_try, bind, lift. rewrite Hval, Hinit.
  rewrite (search_flights_run X cfg w1 Hok). fold replies.
  rewrite (send_email_after_deliver X env _ msg _ Hne Hmsg).
  unfold deliver, bind, lift. unfold smtp_port in Hport. rewrite Hport.
  unfold with_server, bind, call, logging. simpl.
  fold host. fold user. fold password.
  rewrite Hopen. simpl. rewrite Htls. simpl. rewrite Hlogin. simpl.
  rewrite Hsend. simpl.
  split_calls; (eexists; split; [reflexivity |]); simpl;
    rewrite Ha1, !notifier_calls_app, !sent_messages_app, Hc1, Hm1, Hc2, Hm2; simpl;
    rewrite !(right_id_L [] app);
    (split; [done |]); (split; [done |]);
    rewrite !in_app_iff; simpl; tauto.
Qed.

Lemma main_notifies_when_all_succeed_witness :
  let X := Faults.collaborators Faults.provider_quota Faults.none in
  exists w',
    main X Demo.env CONFIG (Faults.start X (0, [])) = (inr tt, w')
    /\ notifier_calls (trace w') = [("smtp.gmail.com", 587%Z)]
    /\ msg_Subject <$> sent_messages (trace w') = ["Flight Alert: 2 Direct Flights Found!"].
Proof.
  intros X.
  destruct (main_notifies_when_all_succeed X Demo.env CONFIG (Faults.start X (0, []))
              (@MkWorld X (0, []) [ClientInit (Some "id") (Some "secret")])
              {| msg_From := Some "alerts@example.org";
                 msg_To := Some "me@example.org";
                 msg_Subject := "Flight Alert: 2 Direct Flights Found!";
                 msg_body := "Direct Flights Found:" +:+ LF +:+ LF
                             +:+ "From: LGA To: OAK" +:+ LF +:+ "Airline: B6" +:+ LF
                             +:+ "Price: $199.00" +:+ LF +:+ LF
                             +:+ "From: LGA To: SJC" +:+ LF +:+ "Airline: B6" +:+ LF
                             +:+ "Price: $199.00" +:+ LF +:+ LF |}
              587%Z)
    as (w' & Hrun & Hcalls & Hsent & _); try reflexivity; try discriminate.
  - vm_compute. repeat constructor.
  - exists w'. split; [exact Hrun |]. split; [exact Hcalls |]. by rewrite Hsent.
Defined.

(** ** Offers that cannot be shown *)

Section Malformed.
Context {I : Interpreter}.

Lemma append_flight_error (body : string) (flight : pyval) (e : exn) :
  offer_error flight = Some e -> append_flight body flight = inl e.
Proof.
  unfold offer_error, append_flight.
  destruct (getitem_key flight "originLocationCode") as [? | o]; [by intros [= ->] |].
  destruct (getitem_key flight "destinationLocationCode") as [? | d]; [by intros [= ->] |].
  destruct (getitem_key flight "validatingAirlineCodes") as [? | codes]; [by intros [= ->] |].
  destruct (getitem_0 codes) as [? | a]; [by intros [= ->] |].
  destruct (getitem_key flight "price") as [? | price]; [by intros [= ->] |].
  destruct (getitem_key price "total") as [? | total]; [by intros [= ->] | done].
Qed.

Lemma append_flight_no_error (body : string) (flight : pyval) :
  offer_error flight = None -> exists body', append_flight body flight = inr body'.
Proof.
  unfold offer_error, append_flight.
  destruct (getitem_key flight "originLocationCode") as [? | o]; [done |].
  destruct (getitem_key flight "destinationLocationCode") as [? | d]; [done |].
  destruct (getitem_key flight "validatingAirlineCodes") as [? | codes]; [done |].
  destruct (getitem_0 codes) as [? | a]; [done |].
  destruct (getitem_key flight "price") as [? | price]; [done |].
  destruct (getitem_key price "total") as [? | total]; [done | by eexists].
Qed.

Lemma append_flights_first_error (good rest : list pyval) (flight : pyval)
    (e : exn) (body : string) :
  Forall (fun g => offer_error g = None) good ->
  offer_error flight = Some e ->
  append_flights (good ++ flight :: rest) body = inl e.
Proof.
  intros Hgood Hbad. revert body.
  induction Hgood as [|g good Hg _ IH]; intros body; simpl.
  - by rewrite (append_flight_error body flight e Hbad).
  - destruct (append_flight_no_error body g Hg) as [body' ->]. apply IH.
Qed.

End Malformed.

(** X13. The first offer of the list on which a subscript of lines 99 to
    101 raises decides the outcome: composition raises that exception, the
    offers after it are not looked at, and [send_email] logs its text and
    returns without any call to the mail server, however many well-formed
    offers the list holds. *)
Theorem compose_message_first_failure `{Interpreter} (env : gmap string string)
    (good rest : list pyval) (flight : pyval) (e : exn) :
  Forall (fun g => offer_error g = None) good ->
  offer_error flight = Some e ->
  compose_message env (good ++ flight :: rest) = inl e
  /\ forall (X : Collaborators) (w : World X),
       send_email X env (good ++ flight :: rest) w
       = (inr tt,
          MkWorld (remote w)
            (trace w ++ [Log ERROR ("Error sending email: " +:+ exn_text e)])).
Proof.
  intros Hgood Hbad.
  assert (Hmsg : compose_message env (good ++ flight :: rest) = inl e).
  { unfold compose_message. by rewrite (append_flights_first_error good rest flight e). }
  split; [exact Hmsg |].
  intros X w. destruct (good ++ flight :: rest)%list as [|f l] eqn:E.
  { by destruct good. }
  unfold send_email. rewrite try_except_logging.
  unfold send_email_try, bind, lift. by rewrite Hmsg.
Qed.

Lemma compose_message_first_failure_witness :
  let no_airline :=
    PDict [ ("originLocationCode", PStr "JFK");
            ("destinationLocationCode", PStr "SJC");
            ("validatingAirlineCodes", PList []);
            ("price", PDict [("total", PStr "99.00")]) ] in
  compose_message Demo.env [Demo.offer1; no_airline; Demo.unpriced_offer; PNone]
  = inl (IndexError "list index out of range").
Proof.
  intros no_airline.
  apply (compose_message_first_failure Demo.env [Demo.offer1]
           [Demo.unpriced_offer; PNone] no_airline
           (IndexError "list index out of range")).
  - repeat constructor.
  - reflexivity.
Defined.
